(** * Rate-limiting wrapper of the Warden worker

    A shallow embedding of [src/rate-limit-wrapper.js] and the properties
    of its decision pipeline: endpoint matching, key derivation, the call
    to the limiter binding, the 429 response and the hand-over to the
    WASM backend.

    Host objects (requests, limiter bindings, the backend class, the
    console) are modelled by what the wrapper observes of them.  Every
    call that leaves the wrapper is recorded, in order, in a trace that
    is threaded through the code together with the module's one global
    variable. *)

From Stdlib Require Import ZArith String Ascii List Bool.
From stdpp Require Import base option list strings gmap.

Set Warnings "-register-all".

Local Open Scope string_scope.
Local Open Scope list_scope.

(** ** JavaScript values and strings *)

(** The values that [JSON.parse] and the limiter binding can hand to the
    wrapper.  Numbers are kept as integers: the wrapper only tests them
    for truthiness. *)
Inductive JsValue : Type :=
| JsUndefined
| JsNull
| JsBool (b : bool)
| JsNumber (n : Z)
| JsString (s : string)
| JsArray (items : list JsValue)
| JsObject (props : list (string * JsValue)).

(** An exception value: the constructor's name and its message. *)
Record JsError : Type := { err_name : string; err_message : string }.

Definition TypeError (msg : string) : JsError :=
  {| err_name := "TypeError"; err_message := msg |}.

(** What an awaited promise settles to. *)
Inductive Settled (A : Type) : Type :=
| Fulfilled (a : A)
| Rejected (e : JsError).
Arguments Fulfilled {A} a.
Arguments Rejected {A} e.

(** How a piece of code completes: normally with a value, or abruptly
    with a thrown exception. *)
Inductive Completion (A : Type) : Type :=
| Normal (a : A)
| Thrown (e : JsError).
Arguments Normal {A} a.
Arguments Thrown {A} e.

(** [ToBoolean]. *)
Definition truthy (v : JsValue) : bool :=
  match v with
  | JsUndefined | JsNull => false
  | JsBool b => b
  | JsNumber n => negb (n =? 0)%Z
  | JsString s => negb (String.eqb s "")
  | JsArray _ | JsObject _ => true
  end.

Fixpoint assoc {A : Type} (name : string) (l : list (string * A)) : option A :=
  match l with
  | [] => None
  | (k, v) :: rest => if String.eqb k name then Some v else assoc name rest
  end.

(** [v.name] for a name that no built-in prototype defines ([email],
    [username], [success]): reading a property of [null] or [undefined]
    throws, a primitive or an array has no such property, an object is
    searched for it. *)
Definition get_property (v : JsValue) (name : string) : Completion JsValue :=
  match v with
  | JsUndefined =>
      Thrown (TypeError ("Cannot read properties of undefined (reading '" +:+ name +:+ "')"))
  | JsNull =>
      Thrown (TypeError ("Cannot read properties of null (reading '" +:+ name +:+ "')"))
  | JsObject props => Normal (default JsUndefined (assoc name props))
  | _ => Normal JsUndefined
  end.

(** [a || b] on values. *)
Definition js_or (a b : JsValue) : JsValue := if truthy a then a else b.

(** [s || d] where [s] is a string or [null]. *)
Definition or_string (s : option string) (d : string) : string :=
  match s with
  | Some v => if String.eqb v "" then d else v
  | None => d
  end.

(** [haystack.includes(needle)]. *)
Fixpoint includes (haystack needle : string) : bool :=
  String.prefix needle haystack ||
  match haystack with
  | EmptyString => false
  | String _ rest => includes rest needle
  end.

(** Lower-casing of ASCII letters, used for header names (which are
    ASCII tokens compared without regard to case). *)
Definition ascii_lower (c : ascii) : ascii :=
  let n := nat_of_ascii c in
  if (Nat.leb 65 n && Nat.leb n 90)%bool then ascii_of_nat (n + 32) else c.

Fixpoint ascii_lower_string (s : string) : string :=
  match s with
  | EmptyString => EmptyString
  | String c rest => String (ascii_lower c) (ascii_lower_string rest)
  end.

(** ** [JSON.stringify] *)

Definition dquote : ascii := ascii_of_nat 34.
Definition backslash : ascii := ascii_of_nat 92.

Definition hex_digit (n : nat) : ascii :=
  if Nat.ltb n 10 then ascii_of_nat (48 + n) else ascii_of_nat (87 + n).

Fixpoint json_escape (s : string) : string :=
  match s with
  | EmptyString => EmptyString
  | String c rest =>
      let n := nat_of_ascii c in
      let tail := json_escape rest in
      if Nat.eqb n 34 then String backslash (String dquote tail)
      else if Nat.eqb n 92 then String backslash (String backslash tail)
      else if Nat.eqb n 8 then String backslash (String "b" tail)
      else if Nat.eqb n 12 then String backslash (String "f" tail)
      else if Nat.eqb n 10 then String backslash (String "n" tail)
      else if Nat.eqb n 13 then String backslash (String "r" tail)
      else if Nat.eqb n 9 then String backslash (String "t" tail)
      else if Nat.ltb n 32 then
        String backslash (String "u" (String "0" (String "0"
          (String (hex_digit (Nat.div n 16)) (String (hex_digit (Nat.modulo n 16)) tail)))))
      else String c tail
  end.

Definition json_quote (s : string) : string :=
  String dquote (json_escape s +:+ String dquote EmptyString).

Fixpoint nat_digits (fuel n : nat) (acc : string) : string :=
  match fuel with
  | O => acc
  | S fuel' =>
      let acc' := String (ascii_of_nat (48 + Nat.modulo n 10)) acc in
      if Nat.ltb n 10 then acc' else nat_digits fuel' (Nat.div n 10) acc'
  end.

Definition Z_to_string (n : Z) : string :=
  let m := Z.to_nat (Z.abs n) in
  let digits := nat_digits (S m) m EmptyString in
  if (n <? 0)%Z then String "-" digits else digits.

(** [JSON.stringify(v)]; [None] stands for the result [undefined].  A
    property whose value is [undefined] is left out of an object and is
    written [null] inside an array. *)
Fixpoint JSON_stringify (v : JsValue) : option string :=
  match v with
  | JsUndefined => None
  | JsNull => Some "null"
  | JsBool true => Some "true"
  | JsBool false => Some "false"
  | JsNumber n => Some (Z_to_string n)
  | JsString s => Some (json_quote s)
  | JsArray items =>
      let fix elements (l : list JsValue) : list string :=
        match l with
        | [] => []
        | x :: rest => default "null" (JSON_stringify x) :: elements rest
        end in
      Some ("[" +:+ String.concat "," (elements items) +:+ "]")
  | JsObject props =>
      let fix members (l : list (string * JsValue)) : list string :=
        match l with
        | [] => []
        | (k, x) :: rest =>
            match JSON_stringify x with
            | Some t => (json_quote k +:+ ":" +:+ t) :: members rest
            | None => members rest
            end
        end in
      Some ("{" +:+ String.concat "," (members props) +:+ "}")
  end.

(** ** Host objects *)

(** A form field holds a string or an uploaded file. *)
Inductive FormDataEntryValue : Type :=
| FormString (s : string)
| FormFile (filename : string).

(** The entries of a [FormData], in order. *)
Definition FormData : Type := list (string * FormDataEntryValue).

(** [formData.get(name)]: the first entry of that name, or [null]. *)
Definition FormData_get (fd : FormData) (name : string) : option FormDataEntryValue :=
  assoc name fd.

(** The incoming request as the wrapper sees it: [pathname] is
    [new URL(request.url).pathname]; [body_formData] and [body_json] are
    what [formData()] and [json()] settle to when called on a fresh clone
    of the request. *)
Record Request : Type := {
  pathname : string;
  headers : list (string * string);
  bodyUsed : bool;
  body_formData : Settled FormData;
  body_json : Settled JsValue;
}.

(** [headers.get(name)]: names match without regard to case, several
    values of one name are joined, an unknown name gives [null]. *)
Definition Headers_get (h : list (string * string)) (name : string) : option string :=
  let same (kv : string * string) :=
    String.eqb (ascii_lower_string (fst kv)) (ascii_lower_string name) in
  match List.map snd (List.filter same h) with
  | [] => None
  | values => Some (String.concat ", " values)
  end.

Record Response : Type := {
  status : Z;
  response_headers : list (string * string);
  body : option string;
}.

Record ExecutionContext : Type := { ctx_id : N }.

Record ScheduledEvent : Type := { cron : string; scheduledTime : Z }.

(** Every call that leaves the wrapper. *)
Inductive Effect : Type :=
| ConsoleWarn (message : string) (err : option JsError)
| ConsoleError (message : string) (err : option JsError)
| RequestClone (request : Request)
| BodyFormData (request : Request)
| BodyJson (request : Request)
| LimiterLimit (limiter_id : string) (key : string)
| NewWasmWorker (ctx : ExecutionContext)
| WorkerFetch (request : Request)
| WorkerScheduled (event : ScheduledEvent).

(** A rate-limiter binding.  Its counting is its own business: the reply
    to [limit({key})] may depend on everything that happened before. *)
Record RateLimiter : Type := {
  limiter_id : string;
  limit : list Effect -> string -> Settled JsValue;
}.

(** What [env] holds under a name: a limiter, or a plain value such as a
    variable or a secret. *)
Inductive Binding : Type :=
| BindLimiter (l : RateLimiter)
| BindValue (v : JsValue).

Abbreviation Env := (gmap string Binding).

(** The class imported from [../build/index.js]; its two entry points are
    opaque to the wrapper. *)
Record WorkerEntrypoint : Type := {
  worker_fetch : ExecutionContext -> Env -> Request -> list Effect -> Settled Response;
  worker_scheduled : ExecutionContext -> Env -> ScheduledEvent -> list Effect -> Settled JsValue;
}.

Record WorkerInstance : Type := { instance_ctx : ExecutionContext; instance_env : Env }.

(** ** The state threaded through the code *)

(** The trace of effects so far and the module's global variable. *)
Record World : Type := {
  trace : list Effect;
  wasmWorkerInstance : option WorkerInstance;
}.

Definition record_effect (e : Effect) (w : World) : World :=
  {| trace := trace w ++ [e]; wasmWorkerInstance := wasmWorkerInstance w |}.

(** Stateful code that may throw. *)
Definition M (A : Type) : Type := World -> Completion A * World.

Definition ret {A : Type} (a : A) : M A := fun w => (Normal a, w).

Definition throw {A : Type} (e : JsError) : M A := fun w => (Thrown e, w).

Definition bind {A B : Type} (m : M A) (k : A -> M B) : M B :=
  fun w =>
    match m w with
    | (Normal a, w') => k a w'
    | (Thrown e, w') => (Thrown e, w')
    end.

(** [try { body } catch (e) { handler }]. *)
Definition try_catch {A : Type} (body : M A) (handler : JsError -> M A) : M A :=
  fun w =>
    match body w with
    | (Normal a, w') => (Normal a, w')
    | (Thrown e, w') => handler e w'
    end.

Definition perform (e : Effect) : M unit := fun w => (Normal tt, record_effect e w).

Definition await {A : Type} (p : Settled A) : M A :=
  match p with
  | Fulfilled a => ret a
  | Rejected e => throw e
  end.

Definition complete {A : Type} (c : Completion A) : M A :=
  match c with
  | Normal a => ret a
  | Thrown e => throw e
  end.

Definition history : M (list Effect) := fun w => (Normal (trace w), w).

Declare Scope js_scope.
Delimit Scope js_scope with js.
Notation "x <- m ;; k" := (bind m (fun x => k))
  (at level 100, m at next level, right associativity) : js_scope.
Notation "m ;; k" := (bind m (fun _ => k))
  (at level 100, right associativity) : js_scope.
Local Open Scope js_scope.

Definition console_warn (message : string) (err : option JsError) : M unit :=
  perform (ConsoleWarn message err).

Definition console_error (message : string) (err : option JsError) : M unit :=
  perform (ConsoleError message err).

(** [request.clone()] throws when the body was already read. *)
Definition Request_clone (request : Request) : M Request :=
  perform (RequestClone request) ;;
  if bodyUsed request
  then throw (TypeError "Cannot clone a request whose body is already used")
  else ret request.

Definition Request_formData (request : Request) : M FormData :=
  perform (BodyFormData request) ;; await (body_formData request).

Definition Request_json (request : Request) : M JsValue :=
  perform (BodyJson request) ;; await (body_json request).

(** [limiter.limit({ key })] on whatever [env] holds under the name: a
    limiter is called, anything else has no callable [limit]. *)
Definition Binding_limit (b : option Binding) (key : string) : M JsValue :=
  match b with
  | Some (BindLimiter l) =>
      past <- history ;;
      perform (LimiterLimit (limiter_id l) key) ;;
      await (limit l past key)
  | Some (BindValue _) => throw (TypeError "limiter.limit is not a function")
  | None => throw (TypeError "Cannot read properties of undefined (reading 'limit')")
  end.

Definition Binding_truthy (b : option Binding) : bool :=
  match b with
  | None => false
  | Some (BindLimiter _) => true
  | Some (BindValue v) => truthy v
  end.

(** ** The wrapper *)

Record EndpointConfig : Type := { limiter : string; keyType : string }.

(** Endpoints that require rate limiting.  The source reads the table with
    [RATE_LIMITED_ENDPOINTS[pathname]]; the path of an HTTP URL starts
    with a slash, so the lookup can only ever hit one of the object's own
    keys, never a name inherited from [Object.prototype]. *)
Definition RATE_LIMITED_ENDPOINTS : gmap string EndpointConfig :=
  <["/identity/connect/token" := {| limiter := "LOGIN_RATE_LIMITER"; keyType := "email" |}]>
  (<["/api/accounts/register" := {| limiter := "LOGIN_RATE_LIMITER"; keyType := "ip" |}]>
  (<["/api/accounts/prelogin" := {| limiter := "LOGIN_RATE_LIMITER"; keyType := "ip" |}]>
   ∅)).

(** The result of [checkRateLimit] when it is not [null]. *)
Record Decision : Type := { limited : bool; key : string; endpoint : string }.

(** The body of the rejection, before serialisation. *)
Definition errorResponse : JsValue :=
  JsObject
    [ ("error", JsString "too_many_requests");
      ("error_description", JsString "Too many requests. Please try again later.");
      ("ErrorModel",
        JsObject
          [ ("Message", JsString "Too many requests. Please try again later.");
            ("Object", JsString "error") ]) ].

(** Create a 429 Too Many Requests response. *)
Definition createRateLimitResponse (key endpoint : string) : M Response :=
  console_warn ("Rate limit exceeded for " +:+ endpoint +:+ ", key: " +:+ key) None ;;
  ret {| status := 429;
         response_headers :=
           [ ("Content-Type", "application/json"); ("Retry-After", "60") ];
         body := JSON_stringify errorResponse |}.

Section Wrapper.

(** [String.prototype.toLowerCase] of the host. *)
Variable toLowerCase : string -> string.

(** The imported backend class. *)
Variable WasmWorker : WorkerEntrypoint.

(** [value.toLowerCase()] on a form entry: a file has no such method. *)
Definition FormDataEntryValue_toLowerCase (value : option FormDataEntryValue)
  : M string :=
  match value with
  | Some (FormString s) => ret (toLowerCase s)
  | Some (FormFile _) => throw (TypeError "username.toLowerCase is not a function")
  | None => throw (TypeError "Cannot read properties of null (reading 'toLowerCase')")
  end.

(** [value.toLowerCase()] on a truthy JSON value: only strings have it. *)
Definition JsValue_toLowerCase (value : JsValue) : M string :=
  match value with
  | JsString s => ret (toLowerCase s)
  | _ => throw (TypeError "email.toLowerCase is not a function")
  end.

Definition FormDataEntryValue_truthy (value : option FormDataEntryValue) : bool :=
  match value with
  | None => false
  | Some (FormString s) => negb (String.eqb s "")
  | Some (FormFile _) => true
  end.

(** The [try] block of [extractRateLimitKey]: [Some k] when the block
    returns [k], [None] when control leaves the block at its end. *)
Definition extractEmailKey (request : Request) : M (option string) :=
  clonedRequest <- Request_clone request ;;
  let contentType := or_string (Headers_get (headers request) "content-type") "" in
  if includes contentType "application/x-www-form-urlencoded" then
    formData <- Request_formData clonedRequest ;;
    let username := FormData_get formData "username" in
    if FormDataEntryValue_truthy username then
      lowered <- FormDataEntryValue_toLowerCase username ;;
      ret (Some ("email:" +:+ lowered))
    else ret None
  else if includes contentType "application/json" then
    body <- Request_json clonedRequest ;;
    body_email <- complete (get_property body "email") ;;
    email <- (if truthy body_email then ret body_email
              else complete (get_property body "username")) ;;
    if truthy email then
      lowered <- JsValue_toLowerCase email ;;
      ret (Some ("email:" +:+ lowered))
    else ret None
  else ret None.

(** Extract the rate limit key from the request. *)
Definition extractRateLimitKey (request : Request) (keyType : string) : M string :=
  found <- (if String.eqb keyType "email" then
              try_catch (extractEmailKey request)
                (fun e =>
                   console_warn "Failed to extract email from request body:" (Some e) ;;
                   ret None)
            else ret None) ;;
  match found with
  | Some k => ret k
  | None =>
      (* Fall back to IP address *)
      let ip := or_string (Headers_get (headers request) "cf-connecting-ip") "unknown" in
      ret ("ip:" +:+ ip)
  end.

(** Check if the request should be rate limited; [None] is [null]. *)
Definition checkRateLimit (request : Request) (env : Env) : M (option Decision) :=
  let pathname := pathname request in
  (* Find matching endpoint *)
  match RATE_LIMITED_ENDPOINTS !! pathname with
  | None => ret None
  | Some endpointConfig =>
      (* Check if the rate limiter binding exists *)
      let limiter_binding := env !! limiter endpointConfig in
      if negb (Binding_truthy limiter_binding) then
        console_warn ("Rate limiter binding '" +:+ limiter endpointConfig +:+
                      "' not found, skipping rate limit check") None ;;
        ret None
      else
        (* Extract the rate limit key *)
        key <- extractRateLimitKey request (keyType endpointConfig) ;;
        (* Check rate limit *)
        try_catch
          (reply <- Binding_limit limiter_binding key ;;
           success <- complete (get_property reply "success") ;;
           ret (Some {| limited := negb (truthy success);
                        key := key;
                        endpoint := pathname |}))
          (fun e =>
             console_error "Rate limit check failed:" (Some e) ;;
             ret None)
  end.

(** [new WasmWorker(ctx, env)]: a new instance on every call; the
    constructor only stores its arguments.  The global
    [wasmWorkerInstance] is neither read nor written. *)
Definition getWasmWorker (env : Env) (ctx : ExecutionContext) : M WorkerInstance :=
  perform (NewWasmWorker ctx) ;;
  ret {| instance_ctx := ctx; instance_env := env |}.

Definition WorkerInstance_fetch (wasmWorker : WorkerInstance) (request : Request)
  : M Response :=
  past <- history ;;
  perform (WorkerFetch request) ;;
  await (worker_fetch WasmWorker (instance_ctx wasmWorker) (instance_env wasmWorker)
           request past).

Definition WorkerInstance_scheduled (wasmWorker : WorkerInstance) (event : ScheduledEvent)
  : M JsValue :=
  past <- history ;;
  perform (WorkerScheduled event) ;;
  await (worker_scheduled WasmWorker (instance_ctx wasmWorker) (instance_env wasmWorker)
           event past).

(** The HTTP entry point. *)
Definition fetch (request : Request) (env : Env) (ctx : ExecutionContext) : M Response :=
  (* Check rate limit for sensitive endpoints *)
  rateLimitResult <- checkRateLimit request env ;;
  let forward : M Response :=
    (* Create WASM worker instance and forward the request *)
    wasmWorker <- getWasmWorker env ctx ;;
    WorkerInstance_fetch wasmWorker request in
  match rateLimitResult with
  | Some decision =>
      if limited decision
      then createRateLimitResponse (key decision) (endpoint decision)
      else forward
  | None => forward
  end.

(** The entry point of scheduled events. *)
Definition scheduled (event : ScheduledEvent) (env : Env) (ctx : ExecutionContext)
  : M JsValue :=
  (* Create WASM worker instance and forward the scheduled event *)
  wasmWorker <- getWasmWorker env ctx ;;
  WorkerInstance_scheduled wasmWorker event.

End Wrapper.

(** ** Runs and their observation *)

(** The world after further effects. *)
Definition extend (w : World) (es : list Effect) : World :=
  {| trace := trace w ++ es; wasmWorkerInstance := wasmWorkerInstance w |}.

(** The world in which a freshly loaded module starts. *)
Definition initial_world : World := {| trace := []; wasmWorkerInstance := None |}.

(** The completion a settled promise gives to the code awaiting it. *)
Definition settle {A : Type} (p : Settled A) : Completion A :=
  match p with
  | Fulfilled a => Normal a
  | Rejected e => Thrown e
  end.

(** The key [extractRateLimitKey] derives, and the effects it has on the
    way, read off a run from the initial world. *)
Definition extractedKey (toLowerCase : string -> string) (request : Request)
  (keyType : string) : string :=
  match fst (extractRateLimitKey toLowerCase request keyType initial_world) with
  | Normal k => k
  | Thrown _ => ""
  end.

Definition extractionEffects (toLowerCase : string -> string) (request : Request)
  (keyType : string) : list Effect :=
  trace (snd (extractRateLimitKey toLowerCase request keyType initial_world)).

Definition is_body_read (e : Effect) : bool :=
  match e with
  | RequestClone _ | BodyFormData _ | BodyJson _ => true
  | _ => false
  end.

Definition is_limiter_call (e : Effect) : bool :=
  match e with
  | LimiterLimit _ _ => true
  | _ => false
  end.

Definition is_console (e : Effect) : bool :=
  match e with
  | ConsoleWarn _ _ | ConsoleError _ _ => true
  | _ => false
  end.

(** The calls made to limiters, in order: which limiter, which key. *)
Fixpoint limiter_calls (es : list Effect) : list (string * string) :=
  match es with
  | [] => []
  | LimiterLimit id k :: rest => (id, k) :: limiter_calls rest
  | _ :: rest => limiter_calls rest
  end.

(** A text in which ['] stands for the double quote. *)
Fixpoint with_double_quotes (s : string) : string :=
  match s with
  | EmptyString => EmptyString
  | String c rest =>
      String (if Nat.eqb (nat_of_ascii c) 39 then dquote else c) (with_double_quotes rest)
  end.

(** The rejection body, byte for byte. *)
Definition rejection_body : string :=
  with_double_quotes
    ("{'error':'too_many_requests'," +:+
     "'error_description':'Too many requests. Please try again later.'," +:+
     "'ErrorModel':{'Message':'Too many requests. Please try again later.'," +:+
     "'Object':'error'}}").

(** The strategy-prefixed shape of a key. *)
Definition has_prefix (p s : string) : Prop := exists rest, s = p +:+ rest.

(** ** Sample hosts and requests *)

Module Samples.

Definition okResponse : Response :=
  {| status := 200; response_headers := [("Content-Type", "application/json")];
     body := Some "{}" |}.

Definition backend : WorkerEntrypoint :=
  {| worker_fetch := fun _ _ _ _ => Fulfilled okResponse;
     worker_scheduled := fun _ _ _ _ => Fulfilled JsUndefined |}.

Definition ctx0 : ExecutionContext := {| ctx_id := 0 |}.

Definition success_reply (b : bool) : JsValue := JsObject [("success", JsBool b)].

Definition denyingLimiter : RateLimiter :=
  {| limiter_id := "1001"; limit := fun _ _ => Fulfilled (success_reply false) |}.

Definition failingLimiter : RateLimiter :=
  {| limiter_id := "1001";
     limit := fun _ _ =>
       Rejected {| err_name := "Error"; err_message := "limiter unreachable" |} |}.

(** A limiter that lets each key through once. *)
Definition onceLimiter : RateLimiter :=
  {| limiter_id := "1001";
     limit := fun past k =>
       Fulfilled (success_reply
         (negb (existsb (fun c => String.eqb (snd c) k) (limiter_calls past)))) |}.

Definition envWith (l : RateLimiter) : Env := {[ "LOGIN_RATE_LIMITER" := BindLimiter l ]}.

Definition notFormData : Settled FormData :=
  Rejected (TypeError "Unrecognized Content-Type header value").

Definition notJson : Settled JsValue :=
  Rejected {| err_name := "SyntaxError"; err_message := "Unexpected token" |}.

Definition tokenJsonRequest : Request :=
  {| pathname := "/identity/connect/token";
     headers := [("content-type", "application/json"); ("cf-connecting-ip", "1.2.3.4")];
     bodyUsed := false;
     body_formData := notFormData;
     body_json :=
       Fulfilled (JsObject [("email", JsString "User@Example.com");
                            ("password", JsString "x")]) |}.

Definition tokenJsonUsernameRequest : Request :=
  {| pathname := "/identity/connect/token";
     headers := [("content-type", "application/json; charset=utf-8")];
     bodyUsed := false;
     body_formData := notFormData;
     body_json := Fulfilled (JsObject [("username", JsString "User@Example.com")]) |}.

Definition tokenFormRequest : Request :=
  {| pathname := "/identity/connect/token";
     headers := [("content-type", "application/x-www-form-urlencoded");
                 ("cf-connecting-ip", "5.6.7.8")];
     bodyUsed := false;
     body_formData :=
       Fulfilled [("grant_type", FormString "password");
                  ("username", FormString "User@Example.com")];
     body_json := notJson |}.

Definition tokenTextRequest : Request :=
  {| pathname := "/identity/connect/token";
     headers := [("content-type", "text/plain"); ("cf-connecting-ip", "9.9.9.9")];
     bodyUsed := false;
     body_formData := notFormData;
     body_json := notJson |}.

Definition tokenBrokenJsonRequest : Request :=
  {| pathname := "/identity/connect/token";
     headers := [("content-type", "application/json")];
     bodyUsed := false;
     body_formData := notFormData;
     body_json := notJson |}.

Definition registerRequest : Request :=
  {| pathname := "/api/accounts/register";
     headers := [("content-type", "application/json"); ("cf-connecting-ip", "1.2.3.4")];
     bodyUsed := false;
     body_formData := notFormData;
     body_json := Fulfilled (JsObject [("email", JsString "new@example.com")]) |}.

Definition emptyIpRequest : Request :=
  {| pathname := "/api/accounts/prelogin";
     headers := [("cf-connecting-ip", "")];
     bodyUsed := false;
     body_formData := notFormData;
     body_json := notJson |}.

Definition upperCaseRequest : Request :=
  {| pathname := "/API/Accounts/Register";
     headers := [("cf-connecting-ip", "1.2.3.4")];
     bodyUsed := false;
     body_formData := notFormData;
     body_json := notJson |}.

Definition cronEvent : ScheduledEvent := {| cron := "0 3 * * *"; scheduledTime := 0 |}.

Definition tokenConfig : EndpointConfig :=
  {| limiter := "LOGIN_RATE_LIMITER"; keyType := "email" |}.

Definition registerConfig : EndpointConfig :=
  {| limiter := "LOGIN_RATE_LIMITER"; keyType := "ip" |}.

Definition missingBindingWarning : Effect :=
  ConsoleWarn "Rate limiter binding 'LOGIN_RATE_LIMITER' not found, skipping rate limit check"
    None.

End Samples.

(** ** Further sample hosts and requests *)

Module EdgeSamples.

Definition allowingLimiter : RateLimiter :=
  {| limiter_id := "1001"; limit := fun _ _ => Fulfilled (Samples.success_reply true) |}.

(** A limiter whose reply has no [success] field. *)
Definition emptyReplyLimiter : RateLimiter :=
  {| limiter_id := "1001"; limit := fun _ _ => Fulfilled (JsObject []) |}.

(** A limiter that resolves to [null]. *)
Definition nullReplyLimiter : RateLimiter :=
  {| limiter_id := "1001"; limit := fun _ _ => Fulfilled JsNull |}.

(** [LOGIN_RATE_LIMITER] set as a plain text variable. *)
Definition envWithText (text : string) : Env :=
  {[ "LOGIN_RATE_LIMITER" := BindValue (JsString text) ]}.

Definition tokenBothMarkersRequest : Request :=
  {| pathname := "/identity/connect/token";
     headers := [("content-type",
                  "application/json; was=application/x-www-form-urlencoded")];
     bodyUsed := false;
     body_formData := Samples.notFormData;
     body_json := Fulfilled (JsObject [("email", JsString "User@Example.com")]) |}.

Definition tokenEmptyUsernameRequest : Request :=
  {| pathname := "/identity/connect/token";
     headers := [("content-type", "application/x-www-form-urlencoded");
                 ("cf-connecting-ip", "5.6.7.8")];
     bodyUsed := false;
     body_formData := Fulfilled [("username", FormString ""); ("password", FormString "x")];
     body_json := Samples.notJson |}.

Definition tokenUsedBodyRequest : Request :=
  {| pathname := "/identity/connect/token";
     headers := [("content-type", "application/json"); ("cf-connecting-ip", "5.6.7.8")];
     bodyUsed := true;
     body_formData := Samples.notFormData;
     body_json := Fulfilled (JsObject [("email", JsString "User@Example.com")]) |}.

Definition tokenNumericEmailRequest : Request :=
  {| pathname := "/identity/connect/token";
     headers := [("content-type", "application/json"); ("cf-connecting-ip", "5.6.7.8")];
     bodyUsed := false;
     body_formData := Samples.notFormData;
     body_json := Fulfilled (JsObject [("email", JsNumber 7);
                                       ("username", JsString "user@example.com")]) |}.

Definition tokenEmptyEmailRequest : Request :=
  {| pathname := "/identity/connect/token";
     headers := [("content-type", "application/json"); ("cf-connecting-ip", "5.6.7.8")];
     bodyUsed := false;
     body_formData := Samples.notFormData;
     body_json := Fulfilled (JsObject [("email", JsString "");
                                       ("username", JsString "User@Example.com")]) |}.

Definition tokenCapitalisedJsonRequest : Request :=
  {| pathname := "/identity/connect/token";
     headers := [("content-type", "Application/JSON"); ("cf-connecting-ip", "5.6.7.8")];
     bodyUsed := false;
     body_formData := Samples.notFormData;
     body_json := Fulfilled (JsObject [("email", JsString "User@Example.com")]) |}.

End EdgeSamples.

(** The effects a computation adds when started in [w]. *)
Definition effects_of {A : Type} (m : M A) (w : World) : list Effect :=
  drop (length (trace w)) (trace (snd (m w))).

(** The content type and the client address as the extractor reads them. *)
Definition contentType_of (request : Request) : string :=
  or_string (Headers_get (headers request) "content-type") "".

Definition clientIp_of (request : Request) : string :=
  or_string (Headers_get (headers request) "cf-connecting-ip") "unknown".

Definition form_encoded (request : Request) : bool :=
  includes (contentType_of request) "application/x-www-form-urlencoded".

Definition json_encoded (request : Request) : bool :=
  negb (form_encoded request) && includes (contentType_of request) "application/json".

(** The ways in which reading an e-mail address off the body fails. *)
Inductive ExtractionFailure (request : Request) : Prop :=
| body_already_used :
    bodyUsed request = true ->
    ExtractionFailure request
| unsupported_content_type :
    form_encoded request = false -> json_encoded request = false ->
    ExtractionFailure request
| form_parse_failure (e : JsError) :
    form_encoded request = true -> body_formData request = Rejected e ->
    ExtractionFailure request
| form_field_missing (fd : FormData) :
    form_encoded request = true -> body_formData request = Fulfilled fd ->
    FormDataEntryValue_truthy (FormData_get fd "username") = false ->
    ExtractionFailure request
| form_field_not_text (fd : FormData) (filename : string) :
    form_encoded request = true -> body_formData request = Fulfilled fd ->
    FormData_get fd "username" = Some (FormFile filename) ->
    ExtractionFailure request
| json_parse_failure (e : JsError) :
    json_encoded request = true -> body_json request = Rejected e ->
    ExtractionFailure request
| json_body_without_properties (b : JsValue) (e : JsError) :
    json_encoded request = true -> body_json request = Fulfilled b ->
    get_property b "email" = Thrown e ->
    ExtractionFailure request
| json_field_missing (b email username : JsValue) :
    json_encoded request = true -> body_json request = Fulfilled b ->
    get_property b "email" = Normal email ->
    get_property b "username" = Normal username ->
    truthy (js_or email username) = false ->
    ExtractionFailure request
| json_field_not_text (b email username : JsValue) :
    json_encoded request = true -> body_json request = Fulfilled b ->
    get_property b "email" = Normal email ->
    get_property b "username" = Normal username ->
    truthy (js_or email username) = true ->
    (forall s, js_or email username <> JsString s) ->
    ExtractionFailure request.

(** A computation whose completion and effects do not depend on the world
    it starts in. *)
Definition oblivious {A : Type} (m : M A) : Prop :=
  exists c es, forall w, m w = (c, extend w es).

(** A computation that never completes abruptly. *)
Definition returns {A : Type} (m : M A) : Prop :=
  forall w, exists a w', m w = (Normal a, w').

(** A computation that calls no limiter. *)
Definition quiet {A : Type} (m : M A) : Prop :=
  forall w, limiter_calls (trace (snd (m w))) = limiter_calls (trace w).

(** The calls that reach the backend class. *)
Definition is_backend_call (e : Effect) : bool :=
  match e with
  | NewWasmWorker _ | WorkerFetch _ | WorkerScheduled _ => true
  | _ => false
  end.

(** A computation that only ever extends the trace, and only by effects
    satisfying [P]. *)
Definition adds {A : Type} (P : Effect -> Prop) (m : M A) : Prop :=
  forall w, exists c es, m w = (c, extend w es) /\ Forall P es.

(** The response [createRateLimitResponse] builds, whatever its arguments. *)
Definition rateLimitResponse : Response :=
  {| status := 429;
     response_headers := [ ("Content-Type", "application/json"); ("Retry-After", "60") ];
     body := JSON_stringify errorResponse |}.

(** The line [createRateLimitResponse] logs. *)
Definition rejectionLog (endpoint key : string) : Effect :=
  ConsoleWarn ("Rate limit exceeded for " +:+ endpoint +:+ ", key: " +:+ key) None.

(** The line [checkRateLimit] logs when [env] has nothing usable under the
    limiter's name. *)
Definition bindingNotFoundLog (name : string) : Effect :=
  ConsoleWarn ("Rate limiter binding '" +:+ name +:+
               "' not found, skipping rate limit check") None.

(** The line [checkRateLimit] logs when the limiter call fails. *)
Definition checkFailedLog (e : JsError) : Effect :=
  ConsoleError "Rate limit check failed:" (Some e).

(** The line [extractRateLimitKey] logs when reading the body throws. *)
Definition extractionFailedLog (e : JsError) : Effect :=
  ConsoleWarn "Failed to extract email from request body:" (Some e).

(** The one body reader the EMAIL strategy calls, if any: none
    when cloning fails, [formData()] when the content type names form
    encoding, else [json()] when it names JSON, else none. *)
Definition body_reads (request : Request) : list Effect :=
  if bodyUsed request then []
  else if form_encoded request then [BodyFormData request]
  else if json_encoded request then [BodyJson request]
  else [].

(** * Properties *)

(** ** Worlds and the monad *)

Lemma extend_nil (w : World) : extend w [] = w.
Proof. destruct w as [t g]. unfold extend. simpl. by rewrite app_nil_r. Qed.

Lemma extend_extend (w : World) (a b : list Effect) :
  extend (extend w a) b = extend w (a ++ b).
Proof. unfold extend. simpl. by rewrite <- app_assoc. Qed.

Lemma record_effect_extend (e : Effect) (w : World) : record_effect e w = extend w [e].
Proof. reflexivity. Qed.

Lemma trace_extend (w : World) (es : list Effect) :
  trace (extend w es) = trace w ++ es.
Proof. reflexivity. Qed.

Lemma global_extend (w : World) (es : list Effect) :
  wasmWorkerInstance (extend w es) = wasmWorkerInstance w.
Proof. reflexivity. Qed.

Lemma oblivious_ret {A : Type} (a : A) : oblivious (ret a).
Proof. exists (Normal a), []. intros w. unfold ret. by rewrite extend_nil. Qed.

Lemma oblivious_throw {A : Type} (e : JsError) : oblivious (@throw A e).
Proof. exists (Thrown e), []. intros w. unfold throw. by rewrite extend_nil. Qed.

Lemma oblivious_perform (e : Effect) : oblivious (perform e).
Proof. exists (Normal tt), [e]. reflexivity. Qed.

Lemma oblivious_await {A : Type} (p : Settled A) : oblivious (await p).
Proof. destruct p; [apply oblivious_ret | apply oblivious_throw]. Qed.

Lemma oblivious_complete {A : Type} (c : Completion A) : oblivious (complete c).
Proof. destruct c; [apply oblivious_ret | apply oblivious_throw]. Qed.

Lemma oblivious_bind {A B : Type} (m : M A) (k : A -> M B) :
  oblivious m -> (forall a, oblivious (k a)) -> oblivious (bind m k).
Proof.
  intros (c & es & Hm) Hk. destruct c as [a | e].
  - destruct (Hk a) as (c' & es' & Hka).
    exists c', (es ++ es'). intros w. unfold bind.
    by rewrite Hm, Hka, extend_extend.
  - exists (Thrown e), es. intros w. unfold bind. by rewrite Hm.
Qed.

Lemma oblivious_try_catch {A : Type} (m : M A) (h : JsError -> M A) :
  oblivious m -> (forall e, oblivious (h e)) -> oblivious (try_catch m h).
Proof.
  intros (c & es & Hm) Hh. destruct c as [a | e].
  - exists (Normal a), es. intros w. unfold try_catch. by rewrite Hm.
  - destruct (Hh e) as (c' & es' & Hhe).
    exists c', (es ++ es'). intros w. unfold try_catch.
    by rewrite Hm, Hhe, extend_extend.
Qed.

Lemma returns_ret {A : Type} (a : A) : returns (ret a).
Proof. intros w. by exists a, w. Qed.

Lemma returns_bind {A B : Type} (m : M A) (k : A -> M B) :
  returns m -> (forall a, returns (k a)) -> returns (bind m k).
Proof.
  intros Hm Hk w. destruct (Hm w) as (a & w' & Ha).
  destruct (Hk a w') as (b & w'' & Hb).
  exists b, w''. unfold bind. by rewrite Ha.
Qed.

Lemma returns_try_catch {A : Type} (m : M A) (h : JsError -> M A) :
  (forall e, returns (h e)) -> returns (try_catch m h).
Proof.
  intros Hh w. unfold try_catch.
  destruct (m w) as [[a | e] w'].
  - by exists a, w'.
  - apply Hh.
Qed.

Lemma returns_perform (e : Effect) : returns (perform e).
Proof. intros w. by exists tt, (record_effect e w). Qed.

Create HintDb wrapper.

#[local] Hint Resolve oblivious_ret oblivious_throw oblivious_perform oblivious_await
  oblivious_complete returns_ret returns_perform : wrapper.

(** Unfolds the monad and the host calls, leaving the tests on host
    results in place. *)
Ltac run_monad :=
  cbv beta iota zeta delta
    [bind ret throw try_catch perform history await complete console_warn
     console_error Binding_limit Request_clone Request_formData Request_json].

(** Brings nested [record_effect]s and [extend]s to one [extend]. *)
Ltac tidy_world :=
  rewrite ?record_effect_extend, ?extend_extend; cbn [app].

Ltac oblivious_steps :=
  repeat first
    [ apply oblivious_bind; [ | intros ? ]
    | apply oblivious_try_catch; [ | intros ? ]
    | solve [ auto with wrapper ]
    | match goal with
      | |- oblivious (if ?b then _ else _) => destruct b
      | |- oblivious (match ?x with _ => _ end) => destruct x
      end ].

Section WrapperProperties.

Variable toLowerCase : string -> string.
Variable WasmWorker : WorkerEntrypoint.

(** ** Key extraction *)

Lemma extractEmailKey_oblivious (request : Request) :
  oblivious (extractEmailKey toLowerCase request).
Proof.
  unfold extractEmailKey, Request_clone, Request_formData, Request_json,
    FormDataEntryValue_toLowerCase, JsValue_toLowerCase.
  oblivious_steps.
Qed.

Lemma extractRateLimitKey_oblivious (request : Request) (keyType : string) :
  oblivious (extractRateLimitKey toLowerCase request keyType).
Proof.
  unfold extractRateLimitKey, console_warn.
  apply oblivious_bind.
  - destruct (String.eqb keyType "email"); [ | auto with wrapper ].
    apply oblivious_try_catch; [ apply extractEmailKey_oblivious | intros e ].
    oblivious_steps.
  - intros [k | ]; auto with wrapper.
Qed.

(** The extractor never throws, whatever the request and the strategy. *)
Lemma extractRateLimitKey_returns (request : Request) (keyType : string) :
  returns (extractRateLimitKey toLowerCase request keyType).
Proof.
  unfold extractRateLimitKey, console_warn.
  apply returns_bind.
  - destruct (String.eqb keyType "email"); [ | auto with wrapper ].
    apply returns_try_catch. intros e.
    apply returns_bind; auto with wrapper.
  - intros [k | ]; auto with wrapper.
Qed.

(** Every run of the extractor yields [extractedKey] and appends
    [extractionEffects]. *)
Lemma extractRateLimitKey_run (request : Request) (keyType : string) (w : World) :
  extractRateLimitKey toLowerCase request keyType w =
  (Normal (extractedKey toLowerCase request keyType),
   extend w (extractionEffects toLowerCase request keyType)).
Proof.
  destruct (extractRateLimitKey_oblivious request keyType) as (c & es & Hrun).
  destruct (extractRateLimitKey_returns request keyType initial_world) as (k & w' & Hk).
  unfold extractedKey, extractionEffects.
  rewrite Hrun in Hk. injection Hk as -> _.
  by rewrite !Hrun.
Qed.

(** ** The policy table *)

Lemma RATE_LIMITED_ENDPOINTS_lookup (p : string) (cfg : EndpointConfig) :
  RATE_LIMITED_ENDPOINTS !! p = Some cfg <->
  (p = "/identity/connect/token" /\
     cfg = {| limiter := "LOGIN_RATE_LIMITER"; keyType := "email" |}) \/
  (p = "/api/accounts/register" /\
     cfg = {| limiter := "LOGIN_RATE_LIMITER"; keyType := "ip" |}) \/
  (p = "/api/accounts/prelogin" /\
     cfg = {| limiter := "LOGIN_RATE_LIMITER"; keyType := "ip" |}).
Proof.
  unfold RATE_LIMITED_ENDPOINTS.
  rewrite !lookup_insert, lookup_empty.
  repeat case_decide; subst; split.
  all: try (intros [= <-]; tauto).
  all: try (intros [[? ->] | [[? ->] | [? ->]]]; congruence).
  all: try discriminate.
Qed.

Lemma RATE_LIMITED_ENDPOINTS_miss (p : string) :
  p <> "/identity/connect/token" ->
  p <> "/api/accounts/register" ->
  p <> "/api/accounts/prelogin" ->
  RATE_LIMITED_ENDPOINTS !! p = None.
Proof.
  intros H1 H2 H3. unfold RATE_LIMITED_ENDPOINTS.
  by rewrite !lookup_insert_ne, lookup_empty.
Qed.

Lemma RATE_LIMITED_ENDPOINTS_limiter (p : string) (cfg : EndpointConfig) :
  RATE_LIMITED_ENDPOINTS !! p = Some cfg -> limiter cfg = "LOGIN_RATE_LIMITER".
Proof.
  intros H. apply RATE_LIMITED_ENDPOINTS_lookup in H.
  by destruct H as [[_ ->] | [[_ ->] | [_ ->]]].
Qed.

(** ** [checkRateLimit], case by case *)

Lemma checkRateLimit_unmatched (request : Request) (env : Env) (w : World) :
  RATE_LIMITED_ENDPOINTS !! pathname request = None ->
  checkRateLimit toLowerCase request env w = (Normal None, w).
Proof. intros H. unfold checkRateLimit. by rewrite H. Qed.

Lemma checkRateLimit_unbound (request : Request) (env : Env) (w : World)
  (cfg : EndpointConfig) :
  RATE_LIMITED_ENDPOINTS !! pathname request = Some cfg ->
  Binding_truthy (env !! limiter cfg) = false ->
  checkRateLimit toLowerCase request env w =
  (Normal None,
   extend w [ConsoleWarn ("Rate limiter binding '" +:+ limiter cfg +:+
                          "' not found, skipping rate limit check") None]).
Proof. intros H Hb. unfold checkRateLimit. by rewrite H, Hb. Qed.

Lemma checkRateLimit_limiter (request : Request) (env : Env) (w : World)
  (cfg : EndpointConfig) (l : RateLimiter) :
  RATE_LIMITED_ENDPOINTS !! pathname request = Some cfg ->
  env !! limiter cfg = Some (BindLimiter l) ->
  let k := extractedKey toLowerCase request (keyType cfg) in
  let w1 := extend w (extractionEffects toLowerCase request (keyType cfg)) in
  checkRateLimit toLowerCase request env w =
  match limit l (trace w1) k with
  | Fulfilled reply =>
      match get_property reply "success" with
      | Normal success =>
          (Normal (Some {| limited := negb (truthy success); key := k;
                           endpoint := pathname request |}),
           extend w1 [LimiterLimit (limiter_id l) k])
      | Thrown e =>
          (Normal None,
           extend w1 [LimiterLimit (limiter_id l) k;
                      ConsoleError "Rate limit check failed:" (Some e)])
      end
  | Rejected e =>
      (Normal None,
       extend w1 [LimiterLimit (limiter_id l) k;
                  ConsoleError "Rate limit check failed:" (Some e)])
  end.
Proof.
  intros H Hb k w1. unfold checkRateLimit. rewrite H, Hb.
  cbn [Binding_truthy negb].
  unfold bind at 1. rewrite extractRateLimitKey_run. fold k w1. clearbody k w1.
  run_monad.
  destruct (limit l (trace w1) k) as [reply | e].
  - destruct (get_property reply "success") as [success | e]; by tidy_world.
  - by tidy_world.
Qed.

(** [checkRateLimit] itself never throws. *)
Lemma checkRateLimit_returns (request : Request) (env : Env) :
  returns (checkRateLimit toLowerCase request env).
Proof.
  unfold checkRateLimit.
  destruct (RATE_LIMITED_ENDPOINTS !! pathname request) as [cfg | ];
    [ | apply returns_ret ].
  simpl. destruct (negb (Binding_truthy (env !! limiter cfg))).
  - apply returns_bind; [ apply returns_perform | intros; apply returns_ret ].
  - apply returns_bind; [ apply extractRateLimitKey_returns | intros k ].
    apply returns_try_catch. intros e.
    apply returns_bind; [ apply returns_perform | intros; apply returns_ret ].
Qed.

(** ** The two ways out of [fetch] *)

Lemma forward_run (request : Request) (env : Env) (ctx : ExecutionContext)
  (w1 : World) :
  (wasmWorker <- getWasmWorker env ctx ;;
   WorkerInstance_fetch WasmWorker wasmWorker request) w1 =
  (settle (worker_fetch WasmWorker ctx env request (trace w1 ++ [NewWasmWorker ctx])),
   extend w1 [NewWasmWorker ctx; WorkerFetch request]).
Proof.
  unfold getWasmWorker, WorkerInstance_fetch. run_monad.
  cbn [instance_ctx instance_env trace record_effect].
  destruct (worker_fetch _ _ _ _ _); by tidy_world.
Qed.

Lemma fetch_forward (request : Request) (env : Env) (ctx : ExecutionContext)
  (w w1 : World) (result : option Decision) :
  checkRateLimit toLowerCase request env w = (Normal result, w1) ->
  match result with Some d => limited d = false | None => True end ->
  fetch toLowerCase WasmWorker request env ctx w =
  (settle (worker_fetch WasmWorker ctx env request (trace w1 ++ [NewWasmWorker ctx])),
   extend w1 [NewWasmWorker ctx; WorkerFetch request]).
Proof.
  intros Hcheck Hallowed. unfold fetch, bind at 1. rewrite Hcheck.
  destruct result as [d | ]; [ rewrite Hallowed | ]; apply forward_run.
Qed.

Lemma fetch_reject (request : Request) (env : Env) (ctx : ExecutionContext)
  (w w1 : World) (d : Decision) :
  checkRateLimit toLowerCase request env w = (Normal (Some d), w1) ->
  limited d = true ->
  fetch toLowerCase WasmWorker request env ctx w =
  (Normal {| status := 429;
             response_headers :=
               [("Content-Type", "application/json"); ("Retry-After", "60")];
             body := JSON_stringify errorResponse |},
   extend w1 [ConsoleWarn ("Rate limit exceeded for " +:+ endpoint d +:+
                           ", key: " +:+ key d) None]).
Proof.
  intros Hcheck Hlimited. unfold fetch, bind at 1. rewrite Hcheck, Hlimited.
  reflexivity.
Qed.

Lemma effects_of_extend {A : Type} (m : M A) (w : World) (c : Completion A)
  (es : list Effect) :
  m w = (c, extend w es) -> effects_of m w = es.
Proof.
  intros H. unfold effects_of. rewrite H. simpl. apply drop_app_length.
Qed.

(** ** The request dispatcher *)

(** C6: a request whose path is not, character for character, one of the
    three keys of the policy table gets no decision ([null]) at no cost
    (the world is left as it was: no body read, no limiter call, no log
    line), and [fetch] hands that very request to the backend and
    completes as the backend does. *)
Theorem unlisted_path_is_forwarded_untouched
  (request : Request) (env : Env) (ctx : ExecutionContext) (w : World) :
  pathname request <> "/identity/connect/token" ->
  pathname request <> "/api/accounts/register" ->
  pathname request <> "/api/accounts/prelogin" ->
  checkRateLimit toLowerCase request env w = (Normal None, w) /\
  effects_of (checkRateLimit toLowerCase request env) w = [] /\
  fetch toLowerCase WasmWorker request env ctx w =
    (settle (worker_fetch WasmWorker ctx env request (trace w ++ [NewWasmWorker ctx])),
     extend w [NewWasmWorker ctx; WorkerFetch request]).
Proof.
  intros H1 H2 H3.
  pose proof (RATE_LIMITED_ENDPOINTS_miss _ H1 H2 H3) as Hmiss.
  pose proof (checkRateLimit_unmatched request env w Hmiss) as Hcheck.
  split; [ exact Hcheck | split ].
  - apply effects_of_extend with (c := Normal None). by rewrite extend_nil.
  - by apply (fetch_forward _ _ _ _ _ _ Hcheck).
Qed.

(** C8: a scheduled event goes straight to the backend's [scheduled]
    entry point: the only effects are the construction of the backend
    instance and that call, so no body is read, no limiter is called and
    nothing is logged, and the run completes as the backend does. *)
Theorem scheduled_event_goes_straight_to_backend
  (event : ScheduledEvent) (env : Env) (ctx : ExecutionContext) (w : World) :
  scheduled WasmWorker event env ctx w =
    (settle (worker_scheduled WasmWorker ctx env event (trace w ++ [NewWasmWorker ctx])),
     extend w [NewWasmWorker ctx; WorkerScheduled event]) /\
  effects_of (scheduled WasmWorker event env ctx) w =
    [NewWasmWorker ctx; WorkerScheduled event] /\
  limiter_calls (effects_of (scheduled WasmWorker event env ctx) w) = [] /\
  List.filter is_body_read (effects_of (scheduled WasmWorker event env ctx) w) = [] /\
  List.filter is_console (effects_of (scheduled WasmWorker event env ctx) w) = [].
Proof.
  assert (Hrun : scheduled WasmWorker event env ctx w =
    (settle (worker_scheduled WasmWorker ctx env event (trace w ++ [NewWasmWorker ctx])),
     extend w [NewWasmWorker ctx; WorkerScheduled event])).
  { unfold scheduled, getWasmWorker, WorkerInstance_scheduled. run_monad.
    cbn [instance_ctx instance_env trace record_effect].
    destruct (worker_scheduled _ _ _ _ _); by tidy_world. }
  split; [ exact Hrun | ].
  rewrite (effects_of_extend _ _ _ _ Hrun). by repeat split.
Qed.

(** ** Missing limiter binding *)

(** C10: on a listed path whose limiter binding is absent from [env],
    [checkRateLimit] returns [null] after one warning and before any key
    extraction: its only effect is that log line, so the request is
    neither cloned nor read and no limiter is called. *)
Theorem missing_binding_skips_key_extraction
  (request : Request) (env : Env) (w : World) (cfg : EndpointConfig) :
  RATE_LIMITED_ENDPOINTS !! pathname request = Some cfg ->
  env !! limiter cfg = None ->
  fst (checkRateLimit toLowerCase request env w) = Normal None /\
  effects_of (checkRateLimit toLowerCase request env) w =
    [ConsoleWarn ("Rate limiter binding '" +:+ limiter cfg +:+
                  "' not found, skipping rate limit check") None] /\
  List.filter is_body_read (effects_of (checkRateLimit toLowerCase request env) w) = [] /\
  limiter_calls (effects_of (checkRateLimit toLowerCase request env) w) = [].
Proof.
  intros Hcfg Habsent.
  assert (Hfalsy : Binding_truthy (env !! limiter cfg) = false) by by rewrite Habsent.
  pose proof (checkRateLimit_unbound request env w cfg Hcfg Hfalsy) as Hrun.
  rewrite (effects_of_extend _ _ _ _ Hrun), Hrun. by repeat split.
Qed.

(** C2 (as amended): on a listed path whose limiter binding is absent
    from [env], [checkRateLimit] logs a warning and returns [null] (no
    decision object is produced), which [fetch] treats as not limited:
    the request is handed to the backend and [fetch] completes as the
    backend does. *)
Theorem missing_binding_fails_open
  (request : Request) (env : Env) (ctx : ExecutionContext) (w : World)
  (cfg : EndpointConfig) :
  RATE_LIMITED_ENDPOINTS !! pathname request = Some cfg ->
  env !! limiter cfg = None ->
  let warning :=
    ConsoleWarn ("Rate limiter binding '" +:+ limiter cfg +:+
                 "' not found, skipping rate limit check") None in
  checkRateLimit toLowerCase request env w = (Normal None, extend w [warning]) /\
  fetch toLowerCase WasmWorker request env ctx w =
    (settle (worker_fetch WasmWorker ctx env request
               (trace w ++ [warning; NewWasmWorker ctx])),
     extend w [warning; NewWasmWorker ctx; WorkerFetch request]).
Proof.
  intros Hcfg Habsent warning.
  assert (Hfalsy : Binding_truthy (env !! limiter cfg) = false) by by rewrite Habsent.
  pose proof (checkRateLimit_unbound request env w cfg Hcfg Hfalsy) as Hrun.
  split; [ exact Hrun | ].
  rewrite (fetch_forward _ _ ctx _ _ _ Hrun I).
  rewrite extend_extend, trace_extend, <- app_assoc. reflexivity.
Qed.

(** ** The limiter's verdict *)

Lemma extractRateLimitKey_inv (request : Request) (keyType : string) (w w1 : World)
  (k : string) :
  extractRateLimitKey toLowerCase request keyType w = (Normal k, w1) ->
  k = extractedKey toLowerCase request keyType /\
  w1 = extend w (extractionEffects toLowerCase request keyType).
Proof. rewrite extractRateLimitKey_run. by intros [= <- <-]. Qed.

Lemma rejection_body_serialised : JSON_stringify errorResponse = Some rejection_body.
Proof. reflexivity. Qed.

(** C1: on a listed path whose limiter binding exists and answers the
    derived key with an object whose [success] is [false],
    [checkRateLimit] returns the decision [limited: true] with that key
    and the matched path, and [fetch] returns a response of status 429
    with [Retry-After: 60], [Content-Type: application/json] and the
    rejection body byte for byte, after logging the rejection and
    without calling the backend. *)
Theorem limiter_denial_is_answered_with_429
  (request : Request) (env : Env) (ctx : ExecutionContext) (w w1 : World)
  (cfg : EndpointConfig) (l : RateLimiter) (k : string)
  (reply : list (string * JsValue)) :
  RATE_LIMITED_ENDPOINTS !! pathname request = Some cfg ->
  env !! limiter cfg = Some (BindLimiter l) ->
  extractRateLimitKey toLowerCase request (keyType cfg) w = (Normal k, w1) ->
  limit l (trace w1) k = Fulfilled (JsObject reply) ->
  assoc "success" reply = Some (JsBool false) ->
  checkRateLimit toLowerCase request env w =
    (Normal (Some {| limited := true; key := k; endpoint := pathname request |}),
     extend w1 [LimiterLimit (limiter_id l) k]) /\
  exists response,
    fetch toLowerCase WasmWorker request env ctx w =
      (Normal response,
       extend w1 [LimiterLimit (limiter_id l) k;
                  ConsoleWarn ("Rate limit exceeded for " +:+ pathname request +:+
                               ", key: " +:+ k) None]) /\
    status response = 429%Z /\
    Headers_get (response_headers response) "Retry-After" = Some "60" /\
    Headers_get (response_headers response) "Content-Type" = Some "application/json" /\
    body response = Some rejection_body.
Proof.
  intros Hcfg Hbound Hkey Hreply Hsuccess.
  apply extractRateLimitKey_inv in Hkey as [-> ->].
  pose proof (checkRateLimit_limiter request env w cfg l Hcfg Hbound) as Hcheck.
  cbv zeta in Hcheck. rewrite Hreply in Hcheck.
  cbn [get_property] in Hcheck. rewrite Hsuccess in Hcheck.
  cbn [default truthy negb] in Hcheck.
  split; [ exact Hcheck | ].
  eexists. split.
  - rewrite (fetch_reject _ _ ctx _ _ _ Hcheck eq_refl).
    cbn [endpoint key]. rewrite extend_extend. reflexivity.
  - cbn [status response_headers body].
    by rewrite rejection_body_serialised.
Qed.

(** C5: on a listed path whose limiter binding exists but whose [limit]
    call throws (or rejects), the error is logged and absorbed:
    [fetch] builds the backend instance, hands it that very request and
    completes exactly as the backend does; so it returns the backend's
    response whenever the backend returns one, and nothing is thrown
    outward that the backend did not throw itself. *)
Theorem limiter_failure_fails_open
  (request : Request) (env : Env) (ctx : ExecutionContext) (w w1 : World)
  (cfg : EndpointConfig) (l : RateLimiter) (k : string) (e : JsError) :
  RATE_LIMITED_ENDPOINTS !! pathname request = Some cfg ->
  env !! limiter cfg = Some (BindLimiter l) ->
  extractRateLimitKey toLowerCase request (keyType cfg) w = (Normal k, w1) ->
  limit l (trace w1) k = Rejected e ->
  let before_backend :=
    [LimiterLimit (limiter_id l) k;
     ConsoleError "Rate limit check failed:" (Some e);
     NewWasmWorker ctx] in
  let backend_outcome :=
    worker_fetch WasmWorker ctx env request (trace w1 ++ before_backend) in
  fetch toLowerCase WasmWorker request env ctx w =
    (settle backend_outcome, extend w1 (before_backend ++ [WorkerFetch request])) /\
  (forall response, backend_outcome = Fulfilled response ->
     fst (fetch toLowerCase WasmWorker request env ctx w) = Normal response) /\
  (forall e', fst (fetch toLowerCase WasmWorker request env ctx w) = Thrown e' ->
     backend_outcome = Rejected e').
Proof.
  intros Hcfg Hbound Hkey Hreply before_backend backend_outcome.
  apply extractRateLimitKey_inv in Hkey as [-> ->].
  pose proof (checkRateLimit_limiter request env w cfg l Hcfg Hbound) as Hcheck.
  cbv zeta in Hcheck. rewrite Hreply in Hcheck.
  assert (Hfetch : fetch toLowerCase WasmWorker request env ctx w =
    (settle backend_outcome,
     extend (extend w (extractionEffects toLowerCase request (keyType cfg)))
       (before_backend ++ [WorkerFetch request]))).
  { rewrite (fetch_forward _ _ ctx _ _ _ Hcheck I).
    subst backend_outcome before_backend.
    rewrite !extend_extend, !trace_extend, <- !app_assoc. reflexivity. }
  split; [ exact Hfetch | ]. rewrite Hfetch. cbn [fst].
  split.
  - by intros response ->.
  - intros e'. by destruct backend_outcome; intros [= ->].
Qed.

(** ** Keys read off the body *)

Lemma nonempty_truthy (v : string) : v <> "" -> negb (String.eqb v "") = true.
Proof. intros H. apply negb_true_iff. by apply String.eqb_neq. Qed.

Lemma json_encoded_true (request : Request) :
  json_encoded request = true ->
  includes (contentType_of request) "application/x-www-form-urlencoded" = false /\
  includes (contentType_of request) "application/json" = true.
Proof.
  unfold json_encoded, form_encoded. intros H.
  apply andb_true_iff in H as [H1 H2]. by apply negb_true_iff in H1.
Qed.

(** Unfolds the extractor under the EMAIL strategy down to the tests on
    the request. *)
Ltac enter_email_extraction request :=
  unfold extractRateLimitKey; rewrite String.eqb_refl;
  unfold extractEmailKey, FormDataEntryValue_toLowerCase, JsValue_toLowerCase;
  fold (contentType_of request); run_monad.

Lemma form_username_key (request : Request) (w : World) (fd : FormData) (v : string) :
  bodyUsed request = false ->
  form_encoded request = true ->
  body_formData request = Fulfilled fd ->
  FormData_get fd "username" = Some (FormString v) ->
  v <> "" ->
  extractRateLimitKey toLowerCase request "email" w =
    (Normal ("email:" +:+ toLowerCase v),
     extend w [RequestClone request; BodyFormData request]).
Proof.
  intros Hused Hform Hfd Hget Hv. unfold form_encoded in Hform.
  enter_email_extraction request.
  rewrite Hused, Hform, Hfd, Hget. cbn [FormDataEntryValue_truthy].
  rewrite (nonempty_truthy v Hv). by tidy_world.
Qed.

Lemma json_address_key (request : Request) (w : World) (b email username : JsValue)
  (v : string) :
  bodyUsed request = false ->
  json_encoded request = true ->
  body_json request = Fulfilled b ->
  get_property b "email" = Normal email ->
  get_property b "username" = Normal username ->
  js_or email username = JsString v ->
  v <> "" ->
  extractRateLimitKey toLowerCase request "email" w =
    (Normal ("email:" +:+ toLowerCase v),
     extend w [RequestClone request; BodyJson request]).
Proof.
  intros Hused Hjson Hbody Hemail Husername Hor Hv.
  apply json_encoded_true in Hjson as [Hform Hjson].
  enter_email_extraction request.
  rewrite Hused, Hform, Hjson, Hbody, Hemail.
  unfold js_or in Hor.
  destruct (truthy email) eqn:Htruthy.
  - rewrite Hor in *. rewrite Htruthy. by tidy_world.
  - rewrite Husername, Hor. cbn [truthy].
    rewrite (nonempty_truthy v Hv). by tidy_world.
Qed.

(** ** Failed extraction *)

Lemma get_property_total (b : JsValue) (name other : string) (v : JsValue) :
  get_property b name = Normal v -> exists u, get_property b other = Normal u.
Proof. destruct b; simpl; intros H; try discriminate; eauto. Qed.

Lemma js_or_falsy (a b : JsValue) :
  truthy (js_or a b) = false -> truthy a = false /\ js_or a b = b.
Proof. unfold js_or. destruct (truthy a) eqn:Ha; [ congruence | auto ]. Qed.

(** Whatever makes the extraction fail, the run ends normally with the
    key of the IP strategy. *)
Lemma failed_extraction_run (request : Request) (w : World) :
  ExtractionFailure request ->
  exists es,
    extractRateLimitKey toLowerCase request "email" w =
      (Normal ("ip:" +:+ clientIp_of request), extend w es).
Proof.
  intros Hfail. enter_email_extraction request. fold (clientIp_of request).
  destruct (bodyUsed request) eqn:Hused.
  { eexists. tidy_world. reflexivity. }
  destruct Hfail as
    [ Hused' | Hform Hjson | e Hform Hbody | fd Hform Hbody Hfield
    | fd filename Hform Hbody Hfield | e Hjson Hbody | b e Hjson Hbody Hemail
    | b email username Hjson Hbody Hemail Husername Hfalsy
    | b email username Hjson Hbody Hemail Husername Htruthy Hnot_text ].
  - congruence.
  - unfold json_encoded in Hjson. rewrite Hform in Hjson. cbn [negb andb] in Hjson.
    unfold form_encoded in Hform. rewrite Hform, Hjson.
    eexists. tidy_world. reflexivity.
  - unfold form_encoded in Hform. rewrite Hform, Hbody.
    eexists. tidy_world. reflexivity.
  - unfold form_encoded in Hform. rewrite Hform, Hbody, Hfield.
    eexists. tidy_world. reflexivity.
  - unfold form_encoded in Hform. rewrite Hform, Hbody, Hfield.
    cbn [FormDataEntryValue_truthy].
    eexists. tidy_world. reflexivity.
  - apply json_encoded_true in Hjson as [Hform Hjson]. rewrite Hform, Hjson, Hbody.
    eexists. tidy_world. reflexivity.
  - apply json_encoded_true in Hjson as [Hform Hjson].
    rewrite Hform, Hjson, Hbody, Hemail.
    eexists. tidy_world. reflexivity.
  - apply json_encoded_true in Hjson as [Hform Hjson].
    rewrite Hform, Hjson, Hbody, Hemail.
    apply js_or_falsy in Hfalsy as Hboth. destruct Hboth as [Hemail_falsy Hpick].
    rewrite Hpick in Hfalsy. rewrite Hemail_falsy, Husername, Hfalsy.
    eexists. tidy_world. reflexivity.
  - apply json_encoded_true in Hjson as [Hform Hjson].
    rewrite Hform, Hjson, Hbody, Hemail.
    unfold js_or in Htruthy, Hnot_text.
    destruct (truthy email) eqn:Hemail_truthy.
    + rewrite Hemail_truthy.
      destruct email; try (eexists; tidy_world; reflexivity).
      by destruct (Hnot_text s).
    + rewrite Husername, Htruthy.
      destruct username; try (eexists; tidy_world; reflexivity).
      by destruct (Hnot_text s).
Qed.

(** Every request either yields an address or fails in one of the listed
    ways. *)
Lemma email_extraction_dichotomy (request : Request) (w : World) :
  (exists v es,
     v <> "" /\
     extractRateLimitKey toLowerCase request "email" w =
       (Normal ("email:" +:+ toLowerCase v), extend w es)) \/
  ExtractionFailure request.
Proof.
  destruct (bodyUsed request) eqn:Hused.
  { right. by apply body_already_used. }
  destruct (form_encoded request) eqn:Hform.
  - destruct (body_formData request) as [fd | e] eqn:Hbody.
    2: { right. by apply (form_parse_failure request e). }
    destruct (FormData_get fd "username") as [[s | filename] | ] eqn:Hfield.
    + destruct (String.eqb_spec s "") as [-> | Hs].
      * right. apply (form_field_missing request fd); auto. by rewrite Hfield.
      * left. exists s. eexists. split; [ exact Hs | ].
        by apply (form_username_key request w fd s).
    + right. by apply (form_field_not_text request fd filename).
    + right. apply (form_field_missing request fd); auto. by rewrite Hfield.
  - destruct (json_encoded request) eqn:Hjson.
    2: { right. by apply unsupported_content_type. }
    destruct (body_json request) as [b | e] eqn:Hbody.
    2: { right. by apply (json_parse_failure request e). }
    destruct (get_property b "email") as [email | e] eqn:Hemail.
    2: { right. by apply (json_body_without_properties request b e). }
    destruct (get_property_total b "email" "username" email Hemail)
      as [username Husername].
    destruct (truthy (js_or email username)) eqn:Htruthy.
    2: { right. by apply (json_field_missing request b email username). }
    destruct (js_or email username) as [ | | flag | n | s | items | props ] eqn:Hpick.
    5: { left. exists s. eexists. split.
         - intros ->. discriminate Htruthy.
         - apply (json_address_key request w b email username s); auto.
           intros ->. discriminate Htruthy. }
    all: right; apply (json_field_not_text request b email username); auto.
    all: rewrite Hpick; auto; intros s'; discriminate.
Qed.

(** ** The extracted key *)

Lemma ip_strategy_run (request : Request) (keyType : string) (w : World) :
  keyType <> "email" ->
  extractRateLimitKey toLowerCase request keyType w =
    (Normal ("ip:" +:+ clientIp_of request), w).
Proof.
  intros Hip. unfold extractRateLimitKey.
  apply String.eqb_neq in Hip. rewrite Hip. reflexivity.
Qed.

Lemma clientIp_of_present (request : Request) (v : string) :
  Headers_get (headers request) "cf-connecting-ip" = Some v -> v <> "" ->
  clientIp_of request = v.
Proof.
  intros Hget Hv. unfold clientIp_of. rewrite Hget. cbn [or_string].
  apply String.eqb_neq in Hv. by rewrite Hv.
Qed.

Lemma clientIp_of_unknown (request : Request) :
  Headers_get (headers request) "cf-connecting-ip" = None \/
  Headers_get (headers request) "cf-connecting-ip" = Some "" ->
  clientIp_of request = "unknown".
Proof. unfold clientIp_of. by intros [-> | ->]. Qed.

(** C3 (as amended): under the EMAIL strategy, with a body that has not
    been read yet: when the content type contains
    [application/x-www-form-urlencoded], in that very spelling, and the
    form field [username] is a non-empty string, the key is ["email:"]
    followed by that string in lower case; when the content type does not
    contain that marker but contains [application/json], in that very
    spelling, and the body is an object, the key is ["email:"] followed
    by the lower-cased [email] field when that is a non-empty string, and
    by the lower-cased [username] field when [email] is absent or falsy
    (empty, for one) and [username] is a non-empty string.  The request
    is cloned before the one read. *)
Theorem email_strategy_key_from_body (request : Request) (w : World) (v : string) :
  bodyUsed request = false ->
  v <> "" ->
  (forall fd,
     form_encoded request = true ->
     body_formData request = Fulfilled fd ->
     FormData_get fd "username" = Some (FormString v) ->
     extractRateLimitKey toLowerCase request "email" w =
       (Normal ("email:" +:+ toLowerCase v),
        extend w [RequestClone request; BodyFormData request])) /\
  (forall props,
     json_encoded request = true ->
     body_json request = Fulfilled (JsObject props) ->
     assoc "email" props = Some (JsString v) ->
     extractRateLimitKey toLowerCase request "email" w =
       (Normal ("email:" +:+ toLowerCase v),
        extend w [RequestClone request; BodyJson request])) /\
  (forall props,
     json_encoded request = true ->
     body_json request = Fulfilled (JsObject props) ->
     truthy (default JsUndefined (assoc "email" props)) = false ->
     assoc "username" props = Some (JsString v) ->
     extractRateLimitKey toLowerCase request "email" w =
       (Normal ("email:" +:+ toLowerCase v),
        extend w [RequestClone request; BodyJson request])).
Proof.
  intros Hused Hv. repeat split.
  - intros fd Hform Hbody Hfield. by apply (form_username_key request w fd v).
  - intros props Hjson Hbody Hemail.
    apply (json_address_key request w (JsObject props) (JsString v)
             (default JsUndefined (assoc "username" props)) v); auto.
    + cbn [get_property]. by rewrite Hemail.
    + unfold js_or. cbn [truthy]. by rewrite (nonempty_truthy v Hv).
  - intros props Hjson Hbody Hemail Husername.
    apply (json_address_key request w (JsObject props)
             (default JsUndefined (assoc "email" props)) (JsString v) v); auto.
    + cbn [get_property]. by rewrite Husername.
    + unfold js_or. by rewrite Hemail.
Qed.


(** C7 (as amended): for every request and every strategy the extractor
    completes normally with a non-empty key that starts with ["email:"]
    or ["ip:"]; under the IP strategy the key is ["ip:"] followed by the
    [cf-connecting-ip] header value when the header is present and not
    empty, and exactly ["ip:unknown"] when the header is absent or
    empty; the IP strategy has no effects. *)
Theorem extracted_key_shape (request : Request) (keyType : string) (w : World) :
  exists k es,
    extractRateLimitKey toLowerCase request keyType w = (Normal k, extend w es) /\
    k <> "" /\
    (has_prefix "email:" k \/ has_prefix "ip:" k) /\
    (keyType <> "email" ->
       es = [] /\
       (forall ip, Headers_get (headers request) "cf-connecting-ip" = Some ip ->
          ip <> "" -> k = "ip:" +:+ ip) /\
       (Headers_get (headers request) "cf-connecting-ip" = None \/
        Headers_get (headers request) "cf-connecting-ip" = Some "" ->
          k = "ip:unknown")).
Proof.
  destruct (String.eqb_spec keyType "email") as [-> | Hip].
  - destruct (email_extraction_dichotomy request w) as [(v & es & Hv & Hrun) | Hfail].
    + exists ("email:" +:+ toLowerCase v), es.
      split; [ exact Hrun | ]. split; [ discriminate | ].
      split; [ left; by exists (toLowerCase v) | done ].
    + destruct (failed_extraction_run request w Hfail) as [es Hrun].
      exists ("ip:" +:+ clientIp_of request), es.
      split; [ exact Hrun | ]. split; [ discriminate | ].
      split; [ right; by exists (clientIp_of request) | done ].
  - exists ("ip:" +:+ clientIp_of request), [].
    split; [ rewrite extend_nil; by apply ip_strategy_run | ].
    split; [ discriminate | ].
    split; [ right; by exists (clientIp_of request) | ].
    intros _. split; [ reflexivity | split ].
    + intros ip Hget Hne. by rewrite (clientIp_of_present request ip Hget Hne).
    + intros Habsent. by rewrite (clientIp_of_unknown request Habsent).
Qed.

(** ** Repeated keys *)

Lemma limiter_calls_app (a b : list Effect) :
  limiter_calls (a ++ b) = limiter_calls a ++ limiter_calls b.
Proof.
  induction a as [ | e a IH]; [ reflexivity | ].
  destruct e; simpl; by rewrite ?IH.
Qed.

Lemma quiet_ret {A : Type} (a : A) : quiet (ret a).
Proof. by intros w. Qed.

Lemma quiet_throw {A : Type} (e : JsError) : quiet (@throw A e).
Proof. by intros w. Qed.

Lemma quiet_perform (e : Effect) : is_limiter_call e = false -> quiet (perform e).
Proof.
  intros He w. unfold perform, record_effect. cbn [snd trace].
  rewrite limiter_calls_app. destruct e; try discriminate; simpl; by rewrite app_nil_r.
Qed.

Lemma quiet_bind {A B : Type} (m : M A) (k : A -> M B) :
  quiet m -> (forall a, quiet (k a)) -> quiet (bind m k).
Proof.
  intros Hm Hk w. unfold bind. specialize (Hm w).
  destruct (m w) as [[a | e] w']; [ | exact Hm ].
  rewrite Hk. exact Hm.
Qed.

Lemma quiet_try_catch {A : Type} (m : M A) (h : JsError -> M A) :
  quiet m -> (forall e, quiet (h e)) -> quiet (try_catch m h).
Proof.
  intros Hm Hh w. unfold try_catch. specialize (Hm w).
  destruct (m w) as [[a | e] w']; [ exact Hm | ].
  rewrite Hh. exact Hm.
Qed.

Lemma quiet_await {A : Type} (p : Settled A) : quiet (await p).
Proof. destruct p; [ apply quiet_ret | apply quiet_throw ]. Qed.

Lemma quiet_complete {A : Type} (c : Completion A) : quiet (complete c).
Proof. destruct c; [ apply quiet_ret | apply quiet_throw ]. Qed.

#[local] Hint Resolve quiet_ret quiet_throw quiet_await quiet_complete : wrapper.

Ltac quiet_steps :=
  repeat first
    [ apply quiet_bind; [ | intros ? ]
    | apply quiet_try_catch; [ | intros ? ]
    | apply quiet_perform; reflexivity
    | solve [ auto with wrapper ]
    | match goal with
      | |- quiet (if ?b then _ else _) => destruct b
      | |- quiet (match ?x with _ => _ end) => destruct x
      end ].

(** Key extraction never talks to a limiter. *)
Lemma extractRateLimitKey_quiet (request : Request) (keyType : string) :
  quiet (extractRateLimitKey toLowerCase request keyType).
Proof.
  unfold extractRateLimitKey, extractEmailKey, Request_clone, Request_formData,
    Request_json, FormDataEntryValue_toLowerCase, JsValue_toLowerCase, console_warn.
  quiet_steps.
Qed.

Lemma extractionEffects_quiet (request : Request) (keyType : string) :
  limiter_calls (extractionEffects toLowerCase request keyType) = [].
Proof.
  pose proof (extractRateLimitKey_quiet request keyType initial_world) as H.
  exact H.
Qed.

(** With the binding in place, one run of [fetch] on a listed path calls
    the limiter exactly once, with the extracted key, whatever the reply. *)
Lemma fetch_calls_limiter_once (request : Request) (env : Env) (ctx : ExecutionContext)
  (w : World) (cfg : EndpointConfig) (l : RateLimiter) :
  RATE_LIMITED_ENDPOINTS !! pathname request = Some cfg ->
  env !! limiter cfg = Some (BindLimiter l) ->
  exists c es,
    fetch toLowerCase WasmWorker request env ctx w = (c, extend w es) /\
    limiter_calls es = [(limiter_id l, extractedKey toLowerCase request (keyType cfg))].
Proof.
  intros Hcfg Hbound.
  pose proof (checkRateLimit_limiter request env w cfg l Hcfg Hbound) as Hcheck.
  cbv zeta in Hcheck.
  set (k := extractedKey toLowerCase request (keyType cfg)) in *.
  set (es0 := extractionEffects toLowerCase request (keyType cfg)) in *.
  assert (Hes0 : limiter_calls es0 = []) by apply extractionEffects_quiet.
  destruct (limit l (trace (extend w es0)) k) as [reply | e].
  - destruct (get_property reply "success") as [success | e].
    + destruct (negb (truthy success)) eqn:Hlimited.
      * eexists. eexists. split.
        -- rewrite (fetch_reject _ _ ctx _ _ _ Hcheck eq_refl).
           rewrite !extend_extend. reflexivity.
        -- rewrite !limiter_calls_app, Hes0. reflexivity.
      * eexists. eexists. split.
        -- rewrite (fetch_forward _ _ ctx _ _ _ Hcheck eq_refl).
           rewrite !extend_extend. reflexivity.
        -- rewrite !limiter_calls_app, Hes0. reflexivity.
    + eexists. eexists. split.
      * rewrite (fetch_forward _ _ ctx _ _ _ Hcheck I).
        rewrite !extend_extend. reflexivity.
      * rewrite !limiter_calls_app, Hes0. reflexivity.
  - eexists. eexists. split.
    + rewrite (fetch_forward _ _ ctx _ _ _ Hcheck I).
      rewrite !extend_extend. reflexivity.
    + rewrite !limiter_calls_app, Hes0. reflexivity.
Qed.

(** Two worlds in which the limiter gives the same reply give the same
    decision. *)
Lemma decision_depends_on_reply_only (request : Request) (env : Env) (w w' : World)
  (cfg : EndpointConfig) (l : RateLimiter) :
  RATE_LIMITED_ENDPOINTS !! pathname request = Some cfg ->
  env !! limiter cfg = Some (BindLimiter l) ->
  let k := extractedKey toLowerCase request (keyType cfg) in
  let es := extractionEffects toLowerCase request (keyType cfg) in
  limit l (trace w ++ es) k = limit l (trace w' ++ es) k ->
  fst (checkRateLimit toLowerCase request env w) =
  fst (checkRateLimit toLowerCase request env w').
Proof.
  intros Hcfg Hbound k es Hreply.
  rewrite (checkRateLimit_limiter request env w cfg l Hcfg Hbound).
  rewrite (checkRateLimit_limiter request env w' cfg l Hcfg Hbound).
  cbv zeta. fold k es. rewrite !trace_extend, Hreply.
  destruct (limit l (trace w' ++ es) k) as [reply | e]; [ | reflexivity ].
  by destruct (get_property reply "success").
Qed.

(** C9: two requests on listed paths that carry the same key, handled one
    after the other: each run of [fetch] makes its own call to the
    limiter with that key (two calls in all, the second made whatever
    became of the first); the module's global is left as it was; and each
    decision is a function of the request, the bindings and the
    limiter's reply alone: in any two worlds where the limiter replies
    alike, [checkRateLimit] decides alike. *)
Theorem same_key_requests_each_reach_the_limiter
  (r1 r2 : Request) (env : Env) (ctx1 ctx2 : ExecutionContext) (w : World)
  (cfg1 cfg2 : EndpointConfig) (l : RateLimiter) (k : string) :
  RATE_LIMITED_ENDPOINTS !! pathname r1 = Some cfg1 ->
  RATE_LIMITED_ENDPOINTS !! pathname r2 = Some cfg2 ->
  env !! "LOGIN_RATE_LIMITER" = Some (BindLimiter l) ->
  extractedKey toLowerCase r1 (keyType cfg1) = k ->
  extractedKey toLowerCase r2 (keyType cfg2) = k ->
  let first := fetch toLowerCase WasmWorker r1 env ctx1 w in
  let second := fetch toLowerCase WasmWorker r2 env ctx2 (snd first) in
  limiter_calls (effects_of (fetch toLowerCase WasmWorker r1 env ctx1) w) =
    [(limiter_id l, k)] /\
  limiter_calls (effects_of (fetch toLowerCase WasmWorker r2 env ctx2) (snd first)) =
    [(limiter_id l, k)] /\
  limiter_calls (trace (snd second)) =
    limiter_calls (trace w) ++ [(limiter_id l, k); (limiter_id l, k)] /\
  wasmWorkerInstance (snd second) = wasmWorkerInstance w /\
  (forall w1 w2 : World,
     limit l (trace w1 ++ extractionEffects toLowerCase r1 (keyType cfg1)) k =
     limit l (trace w2 ++ extractionEffects toLowerCase r1 (keyType cfg1)) k ->
     fst (checkRateLimit toLowerCase r1 env w1) =
     fst (checkRateLimit toLowerCase r1 env w2)) /\
  (forall w1 w2 : World,
     limit l (trace w1 ++ extractionEffects toLowerCase r2 (keyType cfg2)) k =
     limit l (trace w2 ++ extractionEffects toLowerCase r2 (keyType cfg2)) k ->
     fst (checkRateLimit toLowerCase r2 env w1) =
     fst (checkRateLimit toLowerCase r2 env w2)).
Proof.
  intros Hcfg1 Hcfg2 Hbound Hk1 Hk2 first second.
  assert (Hbound1 : env !! limiter cfg1 = Some (BindLimiter l))
    by by rewrite (RATE_LIMITED_ENDPOINTS_limiter _ _ Hcfg1).
  assert (Hbound2 : env !! limiter cfg2 = Some (BindLimiter l))
    by by rewrite (RATE_LIMITED_ENDPOINTS_limiter _ _ Hcfg2).
  destruct (fetch_calls_limiter_once r1 env ctx1 w cfg1 l Hcfg1 Hbound1)
    as (c1 & es1 & Hrun1 & Hcalls1).
  assert (Hfirst : snd first = extend w es1) by (subst first; by rewrite Hrun1).
  destruct (fetch_calls_limiter_once r2 env ctx2 (snd first) cfg2 l Hcfg2 Hbound2)
    as (c2 & es2 & Hrun2 & Hcalls2).
  assert (Hsecond : snd second = extend (snd first) es2) by (subst second; by rewrite Hrun2).
  rewrite Hk1 in Hcalls1. rewrite Hk2 in Hcalls2.
  repeat split.
  - by rewrite (effects_of_extend _ _ _ _ Hrun1).
  - by rewrite (effects_of_extend _ _ _ _ Hrun2).
  - rewrite Hsecond, Hfirst, extend_extend, trace_extend, !limiter_calls_app.
    by rewrite Hcalls1, Hcalls2.
  - by rewrite Hsecond, Hfirst.
  - intros w1 w2 Hreply. subst k.
    by apply (decision_depends_on_reply_only r1 env w1 w2 cfg1 l).
  - intros w1 w2 Hreply. subst k. rewrite <- Hk2 in Hreply.
    by apply (decision_depends_on_reply_only r2 env w1 w2 cfg2 l).
Qed.

(** * Further properties of the wrapper *)

(** ** What a run may add to the trace *)

Lemma adds_ret {A : Type} (P : Effect -> Prop) (a : A) : adds P (ret a).
Proof. intros w. exists (Normal a), []. by rewrite extend_nil. Qed.

Lemma adds_throw {A : Type} (P : Effect -> Prop) (e : JsError) : adds P (@throw A e).
Proof. intros w. exists (Thrown e), []. by rewrite extend_nil. Qed.

Lemma adds_history (P : Effect -> Prop) : adds P history.
Proof. intros w. exists (Normal (trace w)), []. by rewrite extend_nil. Qed.

Lemma adds_perform (P : Effect -> Prop) (e : Effect) : P e -> adds P (perform e).
Proof. intros He w. exists (Normal tt), [e]. split; [ reflexivity | by constructor ]. Qed.

Lemma adds_await {A : Type} (P : Effect -> Prop) (p : Settled A) : adds P (await p).
Proof. destruct p; [ apply adds_ret | apply adds_throw ]. Qed.

Lemma adds_complete {A : Type} (P : Effect -> Prop) (c : Completion A) :
  adds P (complete c).
Proof. destruct c; [ apply adds_ret | apply adds_throw ]. Qed.

Lemma adds_bind {A B : Type} (P : Effect -> Prop) (m : M A) (k : A -> M B) :
  adds P m -> (forall a, adds P (k a)) -> adds P (bind m k).
Proof.
  intros Hm Hk w. destruct (Hm w) as (c & es & Hrun & Hes). unfold bind. rewrite Hrun.
  destruct c as [a | e].
  - destruct (Hk a (extend w es)) as (c' & es' & Hrun' & Hes').
    exists c', (es ++ es'). rewrite Hrun', extend_extend.
    split; [ reflexivity | by apply Forall_app ].
  - by exists (Thrown e), es.
Qed.

Lemma adds_try_catch {A : Type} (P : Effect -> Prop) (m : M A) (h : JsError -> M A) :
  adds P m -> (forall e, adds P (h e)) -> adds P (try_catch m h).
Proof.
  intros Hm Hh w. destruct (Hm w) as (c & es & Hrun & Hes). unfold try_catch.
  rewrite Hrun. destruct c as [a | e].
  - by exists (Normal a), es.
  - destruct (Hh e (extend w es)) as (c' & es' & Hrun' & Hes').
    exists c', (es ++ es'). rewrite Hrun', extend_extend.
    split; [ reflexivity | by apply Forall_app ].
Qed.

Ltac adds_steps :=
  repeat first
    [ apply adds_bind; [ | intros ? ]
    | apply adds_try_catch; [ | intros ? ]
    | apply adds_perform; reflexivity
    | apply adds_ret | apply adds_throw | apply adds_history
    | apply adds_await | apply adds_complete
    | match goal with
      | |- adds _ (if ?b then _ else _) => destruct b
      | |- adds _ (match ?x with _ => _ end) => destruct x
      end ].

(** [checkRateLimit] never constructs or calls the backend. *)
Lemma checkRateLimit_adds_no_backend_call (request : Request) (env : Env) :
  adds (fun e => is_backend_call e = false) (checkRateLimit toLowerCase request env).
Proof.
  unfold checkRateLimit, extractRateLimitKey, extractEmailKey, Binding_limit,
    Request_clone, Request_formData, Request_json, FormDataEntryValue_toLowerCase,
    JsValue_toLowerCase, console_warn, console_error.
  cbv zeta. adds_steps.
Qed.

(** ** [checkRateLimit] with something else than a limiter under the name *)

Lemma checkRateLimit_not_a_limiter (request : Request) (env : Env) (w : World)
  (cfg : EndpointConfig) (v : JsValue) :
  RATE_LIMITED_ENDPOINTS !! pathname request = Some cfg ->
  env !! limiter cfg = Some (BindValue v) ->
  truthy v = true ->
  checkRateLimit toLowerCase request env w =
    (Normal None,
     extend w (extractionEffects toLowerCase request (keyType cfg) ++
               [checkFailedLog (TypeError "limiter.limit is not a function")])).
Proof.
  intros Hcfg Hbound Htruthy. unfold checkRateLimit. rewrite Hcfg, Hbound.
  cbn [Binding_truthy]. rewrite Htruthy. cbn [negb].
  unfold bind at 1. rewrite extractRateLimitKey_run.
  run_monad. by tidy_world.
Qed.

(** The four ways through [checkRateLimit]. *)
Lemma checkRateLimit_cases (request : Request) (env : Env) :
  RATE_LIMITED_ENDPOINTS !! pathname request = None \/
  (exists cfg,
     RATE_LIMITED_ENDPOINTS !! pathname request = Some cfg /\
     Binding_truthy (env !! limiter cfg) = false) \/
  (exists cfg v,
     RATE_LIMITED_ENDPOINTS !! pathname request = Some cfg /\
     env !! limiter cfg = Some (BindValue v) /\ truthy v = true) \/
  (exists cfg l,
     RATE_LIMITED_ENDPOINTS !! pathname request = Some cfg /\
     env !! limiter cfg = Some (BindLimiter l)).
Proof.
  destruct (RATE_LIMITED_ENDPOINTS !! pathname request) as [cfg | ];
    [ right | by left ].
  destruct (env !! limiter cfg) as [[l | v] | ] eqn:Hbound.
  - right. right. by exists cfg, l.
  - destruct (truthy v) eqn:Htruthy.
    + right. left. by exists cfg, v.
    + left. exists cfg. by rewrite Hbound.
  - left. exists cfg. by rewrite Hbound.
Qed.

(** Whenever [checkRateLimit] returns a decision, the path is listed, a
    limiter is bound under the listed name, and the decision carries the
    request's path and the extracted key. *)
Lemma checkRateLimit_decision_inv (request : Request) (env : Env) (w w' : World)
  (d : Decision) :
  checkRateLimit toLowerCase request env w = (Normal (Some d), w') ->
  exists cfg l,
    RATE_LIMITED_ENDPOINTS !! pathname request = Some cfg /\
    env !! limiter cfg = Some (BindLimiter l) /\
    endpoint d = pathname request /\
    key d = extractedKey toLowerCase request (keyType cfg) /\
    w' = extend w (extractionEffects toLowerCase request (keyType cfg) ++
                   [LimiterLimit (limiter_id l) (key d)]).
Proof.
  intros Hrun.
  destruct (checkRateLimit_cases request env)
    as [Hnone | [(cfg & Hcfg & Hfalsy) | [(cfg & v & Hcfg & Hbound & Hv)
       | (cfg & l & Hcfg & Hbound)]]].
  - rewrite (checkRateLimit_unmatched request env w Hnone) in Hrun. discriminate.
  - rewrite (checkRateLimit_unbound request env w cfg Hcfg Hfalsy) in Hrun. discriminate.
  - rewrite (checkRateLimit_not_a_limiter request env w cfg v Hcfg Hbound Hv) in Hrun.
    discriminate.
  - exists cfg, l. rewrite (checkRateLimit_limiter request env w cfg l Hcfg Hbound) in Hrun.
    cbv zeta in Hrun.
    destruct (limit l _ _) as [reply | e]; [ | discriminate ].
    destruct (get_property reply "success") as [success | e]; [ | discriminate ].
    injection Hrun as <- <-. cbn [endpoint key]. rewrite extend_extend. auto.
Qed.

(** What [checkRateLimit] adds to the trace, in all four cases. *)
Lemma checkRateLimit_effects (request : Request) (env : Env) (w : World) :
  exists r es,
    checkRateLimit toLowerCase request env w = (Normal r, extend w es) /\
    (es = [] \/
     (exists name, es = [bindingNotFoundLog name]) \/
     (exists cfg tail,
        RATE_LIMITED_ENDPOINTS !! pathname request = Some cfg /\
        es = extractionEffects toLowerCase request (keyType cfg) ++ tail /\
        List.filter is_body_read tail = [] /\
        (limiter_calls tail = [] \/
         exists l, limiter_calls tail =
                     [(limiter_id l, extractedKey toLowerCase request (keyType cfg))]))).
Proof.
  destruct (checkRateLimit_cases request env)
    as [Hnone | [(cfg & Hcfg & Hfalsy) | [(cfg & v & Hcfg & Hbound & Hv)
       | (cfg & l & Hcfg & Hbound)]]].
  - exists None, []. rewrite extend_nil.
    split; [ by apply checkRateLimit_unmatched | by left ].
  - exists None, [bindingNotFoundLog (limiter cfg)].
    split; [ by apply checkRateLimit_unbound | right; left; by eexists ].
  - eexists. eexists.
    split; [ by apply (checkRateLimit_not_a_limiter request env w cfg v) | ].
    right. right. exists cfg. eexists. repeat split; auto.
  - rewrite (checkRateLimit_limiter request env w cfg l Hcfg Hbound). cbv zeta.
    destruct (limit l _ _) as [reply | e];
      [ destruct (get_property reply "success") as [success | e] | ].
    all: eexists; eexists; split; [ rewrite extend_extend; reflexivity | ].
    all: right; right; exists cfg; eexists; repeat split; auto.
    all: right; by exists l.
Qed.

(** ** The limiter's reply, beyond [{success: false}] *)


(** X2: a reply that is neither [null] nor [undefined] and whose
    [success] is missing or falsy counts as a refusal: the decision is
    [limited: true] and [fetch] answers with the 429 without building or
    calling the backend. *)
Theorem reply_without_truthy_success_is_refused
  (request : Request) (env : Env) (ctx : ExecutionContext) (w w1 : World)
  (cfg : EndpointConfig) (l : RateLimiter) (k : string) (reply success : JsValue) :
  RATE_LIMITED_ENDPOINTS !! pathname request = Some cfg ->
  env !! limiter cfg = Some (BindLimiter l) ->
  extractRateLimitKey toLowerCase request (keyType cfg) w = (Normal k, w1) ->
  limit l (trace w1) k = Fulfilled reply ->
  get_property reply "success" = Normal success ->
  truthy success = false ->
  checkRateLimit toLowerCase request env w =
    (Normal (Some {| limited := true; key := k; endpoint := pathname request |}),
     extend w1 [LimiterLimit (limiter_id l) k]) /\
  fetch toLowerCase WasmWorker request env ctx w =
    (Normal rateLimitResponse,
     extend w1 [LimiterLimit (limiter_id l) k; rejectionLog (pathname request) k]).
Proof.
  intros Hcfg Hbound Hkey Hreply Hsuccess Hfalsy.
  apply extractRateLimitKey_inv in Hkey as [-> ->].
  pose proof (checkRateLimit_limiter request env w cfg l Hcfg Hbound) as Hcheck.
  cbv zeta in Hcheck. rewrite Hreply, Hsuccess, Hfalsy in Hcheck. cbn [negb] in Hcheck.
  split; [ exact Hcheck | ].
  rewrite (fetch_reject _ _ ctx _ _ _ Hcheck eq_refl).
  cbn [endpoint key]. rewrite extend_extend. reflexivity.
Qed.

(** X3: a limiter that resolves to [null] or [undefined] makes the
    destructuring of its reply throw; the error is logged and absorbed,
    [checkRateLimit] returns [null] and [fetch] forwards the request. *)
Theorem null_reply_fails_open
  (request : Request) (env : Env) (ctx : ExecutionContext) (w w1 : World)
  (cfg : EndpointConfig) (l : RateLimiter) (k : string) (reply : JsValue) :
  RATE_LIMITED_ENDPOINTS !! pathname request = Some cfg ->
  env !! limiter cfg = Some (BindLimiter l) ->
  extractRateLimitKey toLowerCase request (keyType cfg) w = (Normal k, w1) ->
  limit l (trace w1) k = Fulfilled reply ->
  reply = JsNull \/ reply = JsUndefined ->
  exists e,
    err_name e = "TypeError" /\
    checkRateLimit toLowerCase request env w =
      (Normal None, extend w1 [LimiterLimit (limiter_id l) k; checkFailedLog e]) /\
    fetch toLowerCase WasmWorker request env ctx w =
      (settle (worker_fetch WasmWorker ctx env request
                 (trace w1 ++ [LimiterLimit (limiter_id l) k; checkFailedLog e;
                               NewWasmWorker ctx])),
       extend w1 [LimiterLimit (limiter_id l) k; checkFailedLog e;
                  NewWasmWorker ctx; WorkerFetch request]).
Proof.
  intros Hcfg Hbound Hkey Hreply Hnull.
  apply extractRateLimitKey_inv in Hkey as [-> ->].
  pose proof (checkRateLimit_limiter request env w cfg l Hcfg Hbound) as Hcheck.
  cbv zeta in Hcheck. rewrite Hreply in Hcheck.
  destruct Hnull as [-> | ->]; cbn [get_property] in Hcheck.
  all: match type of Hcheck with context [ConsoleError _ (Some ?err)] => exists err end.
  all: split; [ reflexivity | ]; split; [ exact Hcheck | ].
  all: rewrite (fetch_forward _ _ ctx _ _ _ Hcheck I).
  all: rewrite !extend_extend, !trace_extend, <- !app_assoc; reflexivity.
Qed.

(** ** Something else than a limiter under the limiter's name *)

(** X4: when [env] holds a truthy value that is no limiter under the
    listed name, the key is still extracted (so the EMAIL strategy reads
    the body), the call of its missing [limit] method throws a
    [TypeError] that is logged and absorbed, no limiter is called, and
    [fetch] forwards the request. *)
Theorem non_limiter_binding_fails_open
  (request : Request) (env : Env) (ctx : ExecutionContext) (w : World)
  (cfg : EndpointConfig) (v : JsValue) :
  RATE_LIMITED_ENDPOINTS !! pathname request = Some cfg ->
  env !! limiter cfg = Some (BindValue v) ->
  truthy v = true ->
  let es := extractionEffects toLowerCase request (keyType cfg) ++
            [checkFailedLog (TypeError "limiter.limit is not a function")] in
  checkRateLimit toLowerCase request env w = (Normal None, extend w es) /\
  limiter_calls (effects_of (fetch toLowerCase WasmWorker request env ctx) w) = [] /\
  fetch toLowerCase WasmWorker request env ctx w =
    (settle (worker_fetch WasmWorker ctx env request
               (trace w ++ es ++ [NewWasmWorker ctx])),
     extend w (es ++ [NewWasmWorker ctx; WorkerFetch request])).
Proof.
  intros Hcfg Hbound Hv es.
  pose proof (checkRateLimit_not_a_limiter request env w cfg v Hcfg Hbound Hv) as Hcheck.
  fold es in Hcheck.
  assert (Hfetch : fetch toLowerCase WasmWorker request env ctx w =
    (settle (worker_fetch WasmWorker ctx env request
               (trace w ++ es ++ [NewWasmWorker ctx])),
     extend w (es ++ [NewWasmWorker ctx; WorkerFetch request]))).
  { rewrite (fetch_forward _ _ ctx _ _ _ Hcheck I).
    by rewrite extend_extend, trace_extend, <- app_assoc. }
  split; [ exact Hcheck | split; [ | exact Hfetch ] ].
  rewrite (effects_of_extend _ _ _ _ Hfetch). subst es.
  rewrite !limiter_calls_app, extractionEffects_quiet. reflexivity.
Qed.

(** X5: a falsy value under the listed name (an empty text variable, [0],
    [false], [null]) is treated exactly like a missing binding: one
    warning, [null], no key extraction, and [fetch] forwards the
    request. *)
Theorem falsy_binding_is_treated_as_missing
  (request : Request) (env : Env) (ctx : ExecutionContext) (w : World)
  (cfg : EndpointConfig) (v : JsValue) :
  RATE_LIMITED_ENDPOINTS !! pathname request = Some cfg ->
  env !! limiter cfg = Some (BindValue v) ->
  truthy v = false ->
  checkRateLimit toLowerCase request env w =
    (Normal None, extend w [bindingNotFoundLog (limiter cfg)]) /\
  fetch toLowerCase WasmWorker request env ctx w =
    (settle (worker_fetch WasmWorker ctx env request
               (trace w ++ [bindingNotFoundLog (limiter cfg); NewWasmWorker ctx])),
     extend w [bindingNotFoundLog (limiter cfg); NewWasmWorker ctx; WorkerFetch request]).
Proof.
  intros Hcfg Hbound Hv.
  assert (Hfalsy : Binding_truthy (env !! limiter cfg) = false) by by rewrite Hbound.
  pose proof (checkRateLimit_unbound request env w cfg Hcfg Hfalsy) as Hcheck.
  split; [ exact Hcheck | ].
  rewrite (fetch_forward _ _ ctx _ _ _ Hcheck I).
  by rewrite extend_extend, trace_extend, <- app_assoc.
Qed.

(** ** [fetch] as a whole *)

(** What one run of [fetch] adds to the trace: the effects of
    [checkRateLimit], then either the rejection's log line or the two
    backend calls. *)
Lemma fetch_effects (request : Request) (env : Env) (ctx : ExecutionContext) (w : World) :
  exists r es out c,
    checkRateLimit toLowerCase request env w = (Normal r, extend w es) /\
    fetch toLowerCase WasmWorker request env ctx w = (c, extend w (es ++ out)) /\
    limiter_calls out = [] /\
    List.filter is_body_read out = [].
Proof.
  destruct (checkRateLimit_effects request env w) as (r & es & Hrun & _).
  exists r, es.
  destruct r as [d | ]; [ destruct (limited d) eqn:Hlimited | ].
  - eexists. eexists. split; [ exact Hrun | ].
    rewrite (fetch_reject _ _ ctx _ _ _ Hrun Hlimited), extend_extend. by repeat split.
  - eexists. eexists. split; [ exact Hrun | ].
    rewrite (fetch_forward _ _ ctx _ _ _ Hrun Hlimited), extend_extend. by repeat split.
  - eexists. eexists. split; [ exact Hrun | ].
    rewrite (fetch_forward _ _ ctx _ _ _ Hrun I), extend_extend. by repeat split.
Qed.

(** X6: every run of [fetch] ends in one of two ways.  Either it returns
    the fixed 429 response, having logged the rejection and never built
    or called the backend; or it builds one backend instance from the
    current [ctx] and [env], calls its [fetch] once with the very request
    it was given, and completes exactly as that call does.  So [fetch]
    can only throw what the backend throws. *)
Theorem fetch_rejects_or_forwards
  (request : Request) (env : Env) (ctx : ExecutionContext) (w : World) :
  exists es,
    Forall (fun e => is_backend_call e = false) es /\
    ((exists k,
        fetch toLowerCase WasmWorker request env ctx w =
          (Normal rateLimitResponse,
           extend w (es ++ [rejectionLog (pathname request) k]))) \/
     fetch toLowerCase WasmWorker request env ctx w =
       (settle (worker_fetch WasmWorker ctx env request
                  (trace w ++ es ++ [NewWasmWorker ctx])),
        extend w (es ++ [NewWasmWorker ctx; WorkerFetch request]))).
Proof.
  destruct (checkRateLimit_adds_no_backend_call request env w) as (c & es & Hrun & Hes).
  destruct (checkRateLimit_returns request env w) as (r & w' & Hr).
  rewrite Hrun in Hr. injection Hr as -> _.
  exists es. split; [ exact Hes | ].
  destruct r as [d | ]; [ destruct (limited d) eqn:Hlimited | ].
  - left. exists (key d).
    destruct (checkRateLimit_decision_inv request env w _ d Hrun)
      as (cfg & l & _ & _ & Hendpoint & _).
    rewrite (fetch_reject _ _ ctx _ _ _ Hrun Hlimited), extend_extend, Hendpoint.
    reflexivity.
  - right. rewrite (fetch_forward _ _ ctx _ _ _ Hrun Hlimited).
    by rewrite extend_extend, trace_extend, <- app_assoc.
  - right. rewrite (fetch_forward _ _ ctx _ _ _ Hrun I).
    by rewrite extend_extend, trace_extend, <- app_assoc.
Qed.

(** X7: [checkRateLimit] never throws, whatever the request, the
    bindings and the limiter do; and it returns a decision only when the
    path is listed and a limiter is bound under the listed name, in which
    case the decision carries the request's path and the extracted key,
    and that key is what the limiter was called with, last. *)
Theorem checkRateLimit_decides_only_with_a_limiter
  (request : Request) (env : Env) (w : World) :
  exists r w',
    checkRateLimit toLowerCase request env w = (Normal r, w') /\
    forall d, r = Some d ->
      exists cfg l,
        RATE_LIMITED_ENDPOINTS !! pathname request = Some cfg /\
        env !! limiter cfg = Some (BindLimiter l) /\
        endpoint d = pathname request /\
        key d = extractedKey toLowerCase request (keyType cfg) /\
        w' = extend w (extractionEffects toLowerCase request (keyType cfg) ++
                       [LimiterLimit (limiter_id l) (key d)]).
Proof.
  destruct (checkRateLimit_returns request env w) as (r & w' & Hrun).
  exists r, w'. split; [ exact Hrun | ].
  intros d ->. by apply checkRateLimit_decision_inv.
Qed.

(** X8: one run of [fetch] calls a limiter at most once, and only with
    the key extracted for the listed path. *)
Theorem fetch_calls_limiter_at_most_once
  (request : Request) (env : Env) (ctx : ExecutionContext) (w : World) :
  let calls := limiter_calls (effects_of (fetch toLowerCase WasmWorker request env ctx) w) in
  (length calls <= 1)%nat /\
  forall id k, In (id, k) calls ->
    exists cfg,
      RATE_LIMITED_ENDPOINTS !! pathname request = Some cfg /\
      k = extractedKey toLowerCase request (keyType cfg).
Proof.
  intros calls.
  destruct (fetch_effects request env ctx w)
    as (r & es & out & c & Hcheck & Hfetch & Hout & _).
  assert (Hcalls : calls = limiter_calls es).
  { subst calls. rewrite (effects_of_extend _ _ _ _ Hfetch).
    by rewrite limiter_calls_app, Hout, app_nil_r. }
  rewrite Hcalls. clear Hcalls calls.
  destruct (checkRateLimit_effects request env w) as (r' & es' & Hcheck' & Hshape).
  rewrite Hcheck in Hcheck'. injection Hcheck' as _ Heq.
  apply app_inv_head in Heq. subst es'.
  destruct Hshape as [-> | [(name & ->) | (cfg & tail & Hcfg & -> & _ & Htail)]].
  - split; [ simpl; lia | intros id k [] ].
  - split; [ simpl; lia | intros id k [] ].
  - rewrite limiter_calls_app, extractionEffects_quiet. cbn [app].
    destruct Htail as [-> | (l & ->)].
    + split; [ simpl; lia | intros id k [] ].
    + split; [ simpl; lia | ].
      intros id k [[= <- <-] | []]. by exists cfg.
Qed.

(** X9: on the two address-keyed paths, [/api/accounts/register] and
    [/api/accounts/prelogin], [fetch] never clones the request nor reads
    its body, whatever the content type and the bindings; and if it calls
    the limiter, the key is ["ip:"] followed by the client address. *)
Theorem ip_keyed_endpoints_never_read_body
  (request : Request) (env : Env) (ctx : ExecutionContext) (w : World) :
  pathname request = "/api/accounts/register" \/
  pathname request = "/api/accounts/prelogin" ->
  List.filter is_body_read
    (effects_of (fetch toLowerCase WasmWorker request env ctx) w) = [] /\
  forall id k,
    In (id, k)
      (limiter_calls (effects_of (fetch toLowerCase WasmWorker request env ctx) w)) ->
    k = "ip:" +:+ clientIp_of request.
Proof.
  intros Hpath.
  assert (Hcfg : RATE_LIMITED_ENDPOINTS !! pathname request =
                 Some {| limiter := "LOGIN_RATE_LIMITER"; keyType := "ip" |}).
  { apply RATE_LIMITED_ENDPOINTS_lookup. destruct Hpath as [-> | ->]; auto. }
  assert (Hkey : extractedKey toLowerCase request "ip" = "ip:" +:+ clientIp_of request)
    by reflexivity.
  assert (Heffects : extractionEffects toLowerCase request "ip" = []) by reflexivity.
  destruct (fetch_effects request env ctx w)
    as (r & es & out & c & Hcheck & Hfetch & Hout & Hreads).
  rewrite (effects_of_extend _ _ _ _ Hfetch).
  destruct (checkRateLimit_effects request env w) as (r' & es' & Hcheck' & Hshape).
  rewrite Hcheck in Hcheck'. injection Hcheck' as _ Heq.
  apply app_inv_head in Heq. subst es'.
  rewrite List.filter_app, Hreads, app_nil_r, limiter_calls_app, Hout, app_nil_r.
  destruct Hshape as [-> | [(name & ->) | (cfg & tail & Hcfg' & -> & Htail_reads & Htail)]].
  - split; [ reflexivity | intros id k [] ].
  - split; [ reflexivity | intros id k [] ].
  - rewrite Hcfg in Hcfg'. injection Hcfg' as <-. cbn [keyType] in *.
    rewrite Heffects. cbn [app]. split; [ exact Htail_reads | ].
    destruct Htail as [-> | (l & ->)]; [ intros id k [] | ].
    intros id k [[= <- <-] | []]. exact Hkey.
Qed.

(** ** How the EMAIL strategy reads the body *)

(** X10: when nothing throws, the fall-back to the client address is
    silent.  With an unread body: a content type that names neither form
    encoding nor JSON costs one clone and no read; a form whose
    [username] is missing or empty, and a JSON body whose [email] and
    [username] are both missing or falsy, cost one clone and one read;
    in all three cases nothing is logged. *)
Theorem fallback_without_exception_is_silent (request : Request) (w : World) :
  bodyUsed request = false ->
  (form_encoded request = false -> json_encoded request = false ->
   extractRateLimitKey toLowerCase request "email" w =
     (Normal ("ip:" +:+ clientIp_of request), extend w [RequestClone request])) /\
  (forall fd,
     form_encoded request = true ->
     body_formData request = Fulfilled fd ->
     FormDataEntryValue_truthy (FormData_get fd "username") = false ->
     extractRateLimitKey toLowerCase request "email" w =
       (Normal ("ip:" +:+ clientIp_of request),
        extend w [RequestClone request; BodyFormData request])) /\
  (forall b email username,
     json_encoded request = true ->
     body_json request = Fulfilled b ->
     get_property b "email" = Normal email ->
     get_property b "username" = Normal username ->
     truthy (js_or email username) = false ->
     extractRateLimitKey toLowerCase request "email" w =
       (Normal ("ip:" +:+ clientIp_of request),
        extend w [RequestClone request; BodyJson request])).
Proof.
  intros Hused. split; [ | split ].
  - intros Hform Hjson.
    unfold json_encoded in Hjson. rewrite Hform in Hjson. cbn [negb andb] in Hjson.
    unfold form_encoded in Hform.
    enter_email_extraction request. fold (clientIp_of request).
    rewrite Hused, Hform, Hjson. by tidy_world.
  - intros fd Hform Hbody Hfield. unfold form_encoded in Hform.
    enter_email_extraction request. fold (clientIp_of request).
    rewrite Hused, Hform, Hbody, Hfield. by tidy_world.
  - intros b email username Hjson Hbody Hemail Husername Hfalsy.
    apply json_encoded_true in Hjson as [Hform Hjson].
    apply js_or_falsy in Hfalsy as Hboth. destruct Hboth as [Hemail_falsy Hpick].
    rewrite Hpick in Hfalsy.
    enter_email_extraction request. fold (clientIp_of request).
    rewrite Hused, Hform, Hjson, Hbody, Hemail, Hemail_falsy, Husername, Hfalsy.
    by tidy_world.
Qed.

(** X11: when reading the address throws, the exception is caught and
    logged in exactly one warning that carries it, and the key falls
    back to the client address: a body already used makes the clone
    throw before any read; a body that [formData()] or [json()] rejects
    is logged with that rejection; a JSON body that is [null], or whose
    chosen field is truthy but no string (a number, an object), throws a
    [TypeError] after the read. *)
Theorem fallback_after_exception_is_logged (request : Request) (w : World) :
  let ip_key := Normal ("ip:" +:+ clientIp_of request) in
  (bodyUsed request = true ->
   exists e,
     err_name e = "TypeError" /\
     extractRateLimitKey toLowerCase request "email" w =
       (ip_key, extend w [RequestClone request; extractionFailedLog e])) /\
  (bodyUsed request = false ->
   forall e,
     form_encoded request = true -> body_formData request = Rejected e ->
     extractRateLimitKey toLowerCase request "email" w =
       (ip_key,
        extend w [RequestClone request; BodyFormData request; extractionFailedLog e])) /\
  (bodyUsed request = false ->
   forall e,
     json_encoded request = true -> body_json request = Rejected e ->
     extractRateLimitKey toLowerCase request "email" w =
       (ip_key,
        extend w [RequestClone request; BodyJson request; extractionFailedLog e])) /\
  (bodyUsed request = false ->
   forall b email username,
     json_encoded request = true -> body_json request = Fulfilled b ->
     b = JsNull \/
     (get_property b "email" = Normal email /\
      get_property b "username" = Normal username /\
      truthy (js_or email username) = true /\
      forall s, js_or email username <> JsString s) ->
     exists e,
       err_name e = "TypeError" /\
       extractRateLimitKey toLowerCase request "email" w =
         (ip_key,
          extend w [RequestClone request; BodyJson request; extractionFailedLog e])).
Proof.
  intros ip_key. subst ip_key. split; [ | split; [ | split ] ].
  - intros Hused. eexists. split; [ | ].
    2: { enter_email_extraction request. fold (clientIp_of request).
         rewrite Hused. tidy_world. reflexivity. }
    reflexivity.
  - intros Hused e Hform Hbody. unfold form_encoded in Hform.
    enter_email_extraction request. fold (clientIp_of request).
    rewrite Hused, Hform, Hbody. by tidy_world.
  - intros Hused e Hjson Hbody.
    apply json_encoded_true in Hjson as [Hform Hjson].
    enter_email_extraction request. fold (clientIp_of request).
    rewrite Hused, Hform, Hjson, Hbody. by tidy_world.
  - intros Hused b email username Hjson Hbody Hcase.
    apply json_encoded_true in Hjson as [Hform Hjson].
    enter_email_extraction request. fold (clientIp_of request).
    rewrite Hused, Hform, Hjson, Hbody.
    destruct Hcase as [-> | (Hemail & Husername & Htruthy & Hnot_text)].
    + cbn [get_property]. eexists. split; [ | tidy_world; reflexivity ]. reflexivity.
    + rewrite Hemail. unfold js_or in Htruthy, Hnot_text.
      destruct (truthy email) eqn:Hemail_truthy.
      * rewrite Hemail_truthy.
        destruct email; try (eexists; split; [ | tidy_world; reflexivity ]; reflexivity).
        by destruct (Hnot_text s).
      * rewrite Husername, Htruthy.
        destruct username; try (eexists; split; [ | tidy_world; reflexivity ]; reflexivity).
        by destruct (Hnot_text s).
Qed.

(** X12: under the EMAIL strategy the extractor always clones the request
    first, then calls at most one body reader, [formData()] if the
    content type names form encoding (even when it names JSON as well),
    else [json()] if it names JSON, and last logs at most one warning.
    It never calls a limiter or the backend. *)
Theorem email_extraction_effects_shape (request : Request) (w : World) :
  exists logs,
    effects_of (extractRateLimitKey toLowerCase request "email") w =
      RequestClone request :: body_reads request ++ logs /\
    (logs = [] \/ exists e, logs = [extractionFailedLog e]).
Proof.
  assert (Hrun : exists c logs,
    extractRateLimitKey toLowerCase request "email" w =
      (c, extend w (RequestClone request :: body_reads request ++ logs)) /\
    (logs = [] \/ exists e, logs = [extractionFailedLog e])).
  { enter_email_extraction request.
    unfold body_reads, json_encoded, form_encoded.
    destruct (bodyUsed request).
    { eexists. eexists. split; [ tidy_world; reflexivity | right; by eexists ]. }
    destruct (includes (contentType_of request) "application/x-www-form-urlencoded").
    - destruct (body_formData request) as [fd | e].
      2: { eexists. eexists. split; [ tidy_world; reflexivity | right; by eexists ]. }
      destruct (FormData_get fd "username") as [[s | filename] | ];
        cbn [FormDataEntryValue_truthy].
      + destruct (negb (String.eqb s "")).
        * eexists. exists []. split; [ tidy_world; reflexivity | by left ].
        * eexists. exists []. split; [ tidy_world; reflexivity | by left ].
      + eexists. eexists. split; [ tidy_world; reflexivity | right; by eexists ].
      + eexists. exists []. split; [ tidy_world; reflexivity | by left ].
    - cbn [negb andb].
      destruct (includes (contentType_of request) "application/json").
      2: { eexists. exists []. split; [ tidy_world; reflexivity | by left ]. }
      destruct (body_json request) as [b | e].
      2: { eexists. eexists. split; [ tidy_world; reflexivity | right; by eexists ]. }
      destruct (get_property b "email") as [email | e].
      2: { eexists. eexists. split; [ tidy_world; reflexivity | right; by eexists ]. }
      destruct (truthy email) eqn:Hemail.
      + rewrite Hemail.
        destruct email;
          first [ eexists; exists []; split; [ tidy_world; reflexivity | by left ]
                | eexists; eexists; split; [ tidy_world; reflexivity | right; by eexists ] ].
      + destruct (get_property b "username") as [username | e].
        2: { eexists. eexists. split; [ tidy_world; reflexivity | right; by eexists ]. }
        destruct (truthy username).
        * destruct username;
            first [ eexists; exists []; split; [ tidy_world; reflexivity | by left ]
                  | eexists; eexists; split;
                    [ tidy_world; reflexivity | right; by eexists ] ].
        * eexists. exists []. split; [ tidy_world; reflexivity | by left ]. }
  destruct Hrun as (c & logs & Hrun & Hlogs).
  exists logs. split; [ | exact Hlogs ].
  by apply (effects_of_extend _ _ c).
Qed.

(** X13: under the EMAIL strategy the key is the client-address key
    exactly when the extraction fails in one of the listed ways; in every
    other case it is ["email:"] followed by a lower-cased non-empty
    address. *)
Theorem extraction_fails_iff_ip_key (request : Request) (w : World) :
  (ExtractionFailure request <->
   fst (extractRateLimitKey toLowerCase request "email" w) =
     Normal ("ip:" +:+ clientIp_of request)) /\
  (~ ExtractionFailure request ->
   exists v, v <> "" /\
     fst (extractRateLimitKey toLowerCase request "email" w) =
       Normal ("email:" +:+ toLowerCase v)).
Proof.
  split; [ split | ].
  - intros Hfail. destruct (failed_extraction_run request w Hfail) as [es Hrun].
    by rewrite Hrun.
  - intros Hkey.
    destruct (email_extraction_dichotomy request w) as [(v & es & _ & Hrun) | Hfail];
      [ | exact Hfail ].
    rewrite Hrun in Hkey. discriminate Hkey.
  - intros Hnot.
    destruct (email_extraction_dichotomy request w) as [(v & es & Hv & Hrun) | Hfail];
      [ | contradiction ].
    exists v. split; [ exact Hv | by rewrite Hrun ].
Qed.

(** X14: [fetch] clones the request or reads its body only on the login
    path [/identity/connect/token], and only when [env] holds something
    truthy under [LOGIN_RATE_LIMITER]: a run with a clone or a body read
    among its effects is a run on that path with that binding. *)
Theorem body_is_read_only_for_login
  (request : Request) (env : Env) (ctx : ExecutionContext) (w : World) :
  List.filter is_body_read
    (effects_of (fetch toLowerCase WasmWorker request env ctx) w) <> [] ->
  pathname request = "/identity/connect/token" /\
  Binding_truthy (env !! "LOGIN_RATE_LIMITER") = true.
Proof.
  intros Hread.
  destruct (fetch_effects request env ctx w)
    as (r & es & out & c & Hcheck & Hfetch & _ & Hout).
  rewrite (effects_of_extend _ _ _ _ Hfetch), List.filter_app, Hout, app_nil_r in Hread.
  destruct (checkRateLimit_effects request env w) as (r' & es' & Hcheck' & Hshape).
  rewrite Hcheck in Hcheck'. injection Hcheck' as _ Heq.
  apply app_inv_head in Heq. subst es'.
  destruct Hshape as [-> | [(name & ->) | (cfg & tail & Hcfg & -> & Htail & _)]];
    try (by destruct Hread).
  rewrite List.filter_app, Htail, app_nil_r in Hread.
  pose proof (RATE_LIMITED_ENDPOINTS_limiter _ _ Hcfg) as Hname.
  split.
  - apply RATE_LIMITED_ENDPOINTS_lookup in Hcfg
      as [[Hpath _] | [[_ ->] | [_ ->]]]; [ exact Hpath | | ]; by destruct Hread.
  - destruct (Binding_truthy (env !! "LOGIN_RATE_LIMITER")) eqn:Hbound; [ reflexivity | ].
    rewrite <- Hname in Hbound.
    rewrite (checkRateLimit_unbound request env w cfg Hcfg Hbound) in Hcheck.
    injection Hcheck as _ Heq. apply app_inv_head in Heq.
    apply (f_equal (List.filter is_body_read)) in Heq.
    rewrite List.filter_app, Htail, app_nil_r in Heq. cbn in Heq.
    rewrite <- Heq in Hread. by destruct Hread.
Qed.

End WrapperProperties.

(** * The properties at sample inputs *)

Import Samples.

(** A login that the limiter turns down is answered with the 429. *)
Lemma limiter_denial_is_answered_with_429_witness :
  fst (checkRateLimit ascii_lower_string tokenJsonRequest (envWith denyingLimiter)
         initial_world) =
    Normal (Some {| limited := true; key := "email:user@example.com";
                    endpoint := "/identity/connect/token" |}) /\
  exists response,
    fst (fetch ascii_lower_string backend tokenJsonRequest (envWith denyingLimiter) ctx0
           initial_world) = Normal response /\
    status response = 429%Z /\
    body response = Some rejection_body.
Proof.
  pose proof (limiter_denial_is_answered_with_429 ascii_lower_string backend
                tokenJsonRequest (envWith denyingLimiter) ctx0 initial_world
                (extend initial_world
                   [RequestClone tokenJsonRequest; BodyJson tokenJsonRequest])
                tokenConfig denyingLimiter "email:user@example.com"
                [("success", JsBool false)]
                ltac:(vm_compute; reflexivity) ltac:(vm_compute; reflexivity)
                ltac:(vm_compute; reflexivity) ltac:(vm_compute; reflexivity)
                ltac:(vm_compute; reflexivity)) as Hdenied.
  destruct Hdenied as [Hcheck (response & Hfetch & Hstatus & _ & _ & Hbody)].
  split.
  - rewrite Hcheck. reflexivity.
  - exists response. rewrite Hfetch. auto.
Defined.

(** C2, counterexample: a registration from 1.2.3.4 with no limiter bound
    gets [null] from [checkRateLimit], not a decision object whose
    [limited] is [false]. *)
Lemma missing_binding_yields_no_decision_object :
  checkRateLimit ascii_lower_string registerRequest ∅ initial_world =
    (Normal None, extend initial_world [missingBindingWarning]) /\
  ~ (exists decision w',
       checkRateLimit ascii_lower_string registerRequest ∅ initial_world =
         (Normal (Some decision), w') /\
       limited decision = false).
Proof.
  assert (Hrun : checkRateLimit ascii_lower_string registerRequest ∅ initial_world =
                   (Normal None, extend initial_world [missingBindingWarning]))
    by (vm_compute; reflexivity).
  split; [ exact Hrun | ].
  intros (decision & w' & Hsome & _). rewrite Hrun in Hsome. discriminate Hsome.
Qed.

(** The same registration is handed to the backend after the warning. *)
Lemma missing_binding_fails_open_witness :
  fetch ascii_lower_string backend registerRequest ∅ ctx0 initial_world =
    (Normal okResponse,
     extend initial_world
       [missingBindingWarning; NewWasmWorker ctx0; WorkerFetch registerRequest]).
Proof.
  apply (missing_binding_fails_open ascii_lower_string backend registerRequest ∅ ctx0
           initial_world registerConfig); vm_compute; reflexivity.
Defined.

(** A login with no limiter bound: the body, which the EMAIL strategy
    would read, is left alone. *)
Lemma missing_binding_skips_key_extraction_witness :
  fst (checkRateLimit ascii_lower_string tokenJsonRequest ∅ initial_world) = Normal None /\
  List.filter is_body_read
    (effects_of (checkRateLimit ascii_lower_string tokenJsonRequest ∅) initial_world) = [].
Proof.
  pose proof (missing_binding_skips_key_extraction ascii_lower_string tokenJsonRequest ∅
                initial_world tokenConfig
                ltac:(vm_compute; reflexivity) ltac:(vm_compute; reflexivity)) as Hskipped.
  destruct Hskipped as (Hnone & _ & Hbody & _).
  split; [ exact Hnone | exact Hbody ].
Defined.

(** The three places an address is read from. *)
Lemma email_strategy_key_from_body_witness :
  fst (extractRateLimitKey ascii_lower_string tokenFormRequest "email" initial_world) =
    Normal "email:user@example.com" /\
  fst (extractRateLimitKey ascii_lower_string tokenJsonRequest "email" initial_world) =
    Normal "email:user@example.com" /\
  fst (extractRateLimitKey ascii_lower_string tokenJsonUsernameRequest "email"
         initial_world) =
    Normal "email:user@example.com".
Proof.
  assert (Hv : "User@Example.com" <> "") by discriminate.
  split; [ | split ].
  - rewrite (proj1 (email_strategy_key_from_body ascii_lower_string tokenFormRequest
                      initial_world "User@Example.com" eq_refl Hv)
               _ eq_refl eq_refl eq_refl).
    reflexivity.
  - rewrite (proj1 (proj2 (email_strategy_key_from_body ascii_lower_string
                             tokenJsonRequest initial_world "User@Example.com"
                             eq_refl Hv))
               _ eq_refl eq_refl eq_refl).
    reflexivity.
  - rewrite (proj2 (proj2 (email_strategy_key_from_body ascii_lower_string
                             tokenJsonUsernameRequest initial_world "User@Example.com"
                             eq_refl Hv))
               _ eq_refl eq_refl eq_refl eq_refl).
    reflexivity.
Defined.


(** A login whose JSON does not parse: the exception is logged and the
    key is the sentinel, there being no address header. *)
Example broken_json_falls_back_to_unknown :
  extractRateLimitKey ascii_lower_string tokenBrokenJsonRequest "email" initial_world =
    (Normal "ip:unknown",
     extend initial_world
       [RequestClone tokenBrokenJsonRequest; BodyJson tokenBrokenJsonRequest;
        ConsoleWarn "Failed to extract email from request body:"
          (Some {| err_name := "SyntaxError"; err_message := "Unexpected token" |})]).
Proof. reflexivity. Qed.

(** A login while the limiter is down reaches the backend. *)
Lemma limiter_failure_fails_open_witness :
  fst (fetch ascii_lower_string backend tokenJsonRequest (envWith failingLimiter) ctx0
         initial_world) = Normal okResponse.
Proof.
  refine (proj1 (proj2 (limiter_failure_fails_open ascii_lower_string backend
            tokenJsonRequest (envWith failingLimiter) ctx0 initial_world
            (extend initial_world [RequestClone tokenJsonRequest; BodyJson tokenJsonRequest])
            tokenConfig failingLimiter "email:user@example.com"
            {| err_name := "Error"; err_message := "limiter unreachable" |}
            _ _ _ _)) okResponse _);
    vm_compute; reflexivity.
Defined.

(** A path that differs from a listed one in case only is not limited. *)
Lemma unlisted_path_is_forwarded_untouched_witness :
  checkRateLimit ascii_lower_string upperCaseRequest (envWith denyingLimiter)
    initial_world = (Normal None, initial_world) /\
  fetch ascii_lower_string backend upperCaseRequest (envWith denyingLimiter) ctx0
    initial_world =
    (Normal okResponse,
     extend initial_world [NewWasmWorker ctx0; WorkerFetch upperCaseRequest]).
Proof.
  pose proof (unlisted_path_is_forwarded_untouched ascii_lower_string backend
                upperCaseRequest (envWith denyingLimiter) ctx0 initial_world
                ltac:(discriminate) ltac:(discriminate) ltac:(discriminate)) as Hunlisted.
  destruct Hunlisted as (Hcheck & _ & Hfetch).
  split; [ exact Hcheck | exact Hfetch ].
Defined.

(** C7, counterexample: the header [cf-connecting-ip] is present with an
    empty value, and the key under the IP strategy is ["ip:unknown"], not
    ["ip:"] followed by that value. *)
Lemma empty_client_ip_header_gives_unknown :
  Headers_get (headers emptyIpRequest) "cf-connecting-ip" = Some "" /\
  fst (extractRateLimitKey ascii_lower_string emptyIpRequest "ip" initial_world) =
    Normal "ip:unknown" /\
  ~ (forall (request : Request) (ip : string),
       Headers_get (headers request) "cf-connecting-ip" = Some ip ->
       fst (extractRateLimitKey ascii_lower_string request "ip" initial_world) =
         Normal ("ip:" +:+ ip)).
Proof.
  split; [ reflexivity | split; [ reflexivity | ] ].
  intros Hall. specialize (Hall emptyIpRequest "" eq_refl). discriminate Hall.
Qed.

(** A registration from 1.2.3.4 is keyed by that address. *)
Lemma extracted_key_shape_witness :
  exists k,
    fst (extractRateLimitKey ascii_lower_string registerRequest "ip" initial_world) =
      Normal k /\
    k = "ip:1.2.3.4".
Proof.
  destruct (extracted_key_shape ascii_lower_string registerRequest "ip" initial_world)
    as (k & es & Hrun & _ & _ & Hip).
  exists k. split; [ by rewrite Hrun | ].
  assert (Hstrategy : "ip" <> "email") by discriminate.
  destruct (Hip Hstrategy) as (_ & Hpresent & _).
  apply Hpresent; [ reflexivity | discriminate ].
Defined.

(** The same address sent twice, once as JSON and once as a form, with a
    limiter that lets each key through once. *)
Lemma same_key_requests_each_reach_the_limiter_witness :
  let first :=
    fetch ascii_lower_string backend tokenJsonRequest (envWith onceLimiter) ctx0
      initial_world in
  let second :=
    fetch ascii_lower_string backend tokenFormRequest (envWith onceLimiter) ctx0
      (snd first) in
  limiter_calls (trace (snd second)) =
    [("1001", "email:user@example.com"); ("1001", "email:user@example.com")].
Proof.
  intros first second.
  pose proof (same_key_requests_each_reach_the_limiter ascii_lower_string backend
                tokenJsonRequest tokenFormRequest (envWith onceLimiter) ctx0 ctx0
                initial_world tokenConfig tokenConfig onceLimiter "email:user@example.com"
                ltac:(vm_compute; reflexivity) ltac:(vm_compute; reflexivity)
                ltac:(vm_compute; reflexivity) ltac:(vm_compute; reflexivity)
                ltac:(vm_compute; reflexivity)) as Hboth.
  destruct Hboth as (_ & _ & Hcalls & _).
  exact Hcalls.
Defined.

(** In that run the first request is served and the second is refused. *)
Example once_limiter_serves_then_refuses :
  let first :=
    fetch ascii_lower_string backend tokenJsonRequest (envWith onceLimiter) ctx0
      initial_world in
  let second :=
    fetch ascii_lower_string backend tokenFormRequest (envWith onceLimiter) ctx0
      (snd first) in
  fst first = Normal okResponse /\
  (status <$> (match fst second with Normal r => Some r | Thrown _ => None end)) =
    Some 429%Z.
Proof. vm_compute. split; reflexivity. Qed.

(** The listed paths and nothing near them. *)
Example policy_table_is_exact :
  RATE_LIMITED_ENDPOINTS !! "/api/accounts/prelogin" = Some registerConfig /\
  RATE_LIMITED_ENDPOINTS !! "/api/accounts/prelogin/" = None /\
  RATE_LIMITED_ENDPOINTS !! "/Identity/Connect/Token" = None.
Proof. vm_compute. repeat split. Qed.

(** * The further properties at sample inputs *)

Import EdgeSamples.


(** A limiter that answers [{}] refuses the login. *)
Lemma reply_without_truthy_success_is_refused_witness :
  fst (fetch ascii_lower_string backend tokenJsonRequest (envWith emptyReplyLimiter) ctx0
         initial_world) = Normal rateLimitResponse.
Proof.
  pose proof (reply_without_truthy_success_is_refused ascii_lower_string backend
                tokenJsonRequest (envWith emptyReplyLimiter) ctx0 initial_world
                (extend initial_world
                   [RequestClone tokenJsonRequest; BodyJson tokenJsonRequest])
                tokenConfig emptyReplyLimiter "email:user@example.com"
                (JsObject []) JsUndefined
                ltac:(vm_compute; reflexivity) ltac:(vm_compute; reflexivity)
                ltac:(vm_compute; reflexivity) ltac:(vm_compute; reflexivity)
                ltac:(vm_compute; reflexivity) ltac:(vm_compute; reflexivity))
    as [_ Hfetch].
  rewrite Hfetch. reflexivity.
Defined.

(** A limiter that answers [null] lets the login through. *)
Lemma null_reply_fails_open_witness :
  fst (fetch ascii_lower_string backend tokenJsonRequest (envWith nullReplyLimiter) ctx0
         initial_world) = Normal okResponse.
Proof.
  pose proof (null_reply_fails_open ascii_lower_string backend
                tokenJsonRequest (envWith nullReplyLimiter) ctx0 initial_world
                (extend initial_world
                   [RequestClone tokenJsonRequest; BodyJson tokenJsonRequest])
                tokenConfig nullReplyLimiter "email:user@example.com" JsNull
                ltac:(vm_compute; reflexivity) ltac:(vm_compute; reflexivity)
                ltac:(vm_compute; reflexivity) ltac:(vm_compute; reflexivity)
                ltac:(left; reflexivity))
    as (e & _ & _ & Hfetch).
  rewrite Hfetch. reflexivity.
Defined.

(** [LOGIN_RATE_LIMITER] set to the text ["on"]: the login is forwarded
    and no limiter is called. *)
Lemma non_limiter_binding_fails_open_witness :
  fst (fetch ascii_lower_string backend tokenJsonRequest (envWithText "on") ctx0
         initial_world) = Normal okResponse /\
  limiter_calls
    (effects_of (fetch ascii_lower_string backend tokenJsonRequest (envWithText "on") ctx0)
       initial_world) = [].
Proof.
  pose proof (non_limiter_binding_fails_open ascii_lower_string backend
                tokenJsonRequest (envWithText "on") ctx0 initial_world
                tokenConfig (JsString "on")
                ltac:(vm_compute; reflexivity) ltac:(vm_compute; reflexivity)
                ltac:(vm_compute; reflexivity))
    as (_ & Hcalls & Hfetch).
  split; [ rewrite Hfetch; reflexivity | exact Hcalls ].
Defined.

(** [LOGIN_RATE_LIMITER] set to the empty text: as if it were not there. *)
Lemma falsy_binding_is_treated_as_missing_witness :
  checkRateLimit ascii_lower_string tokenJsonRequest (envWithText "") initial_world =
    (Normal None, extend initial_world [bindingNotFoundLog "LOGIN_RATE_LIMITER"]).
Proof.
  exact (proj1 (falsy_binding_is_treated_as_missing ascii_lower_string backend
                  tokenJsonRequest (envWithText "") ctx0 initial_world
                  tokenConfig (JsString "")
                  ltac:(vm_compute; reflexivity) ltac:(vm_compute; reflexivity)
                  ltac:(vm_compute; reflexivity))).
Defined.

(** The decision on a refused login names the listed path and a bound
    limiter. *)
Lemma checkRateLimit_decides_only_with_a_limiter_witness :
  exists cfg l,
    RATE_LIMITED_ENDPOINTS !! pathname tokenJsonRequest = Some cfg /\
    envWith denyingLimiter !! limiter cfg = Some (BindLimiter l).
Proof.
  destruct (checkRateLimit_decides_only_with_a_limiter ascii_lower_string
              tokenJsonRequest (envWith denyingLimiter) initial_world)
    as (r & w' & Hrun & Hinv).
  assert (Hr : r = Some {| limited := true; key := "email:user@example.com";
                          endpoint := "/identity/connect/token" |}).
  { vm_compute in Hrun. by injection Hrun as <- _. }
  destruct (Hinv _ Hr) as (cfg & l & Hcfg & Hbound & _).
  by exists cfg, l.
Defined.

(** The one call made for a login carries the key of the listed path. *)
Lemma fetch_calls_limiter_at_most_once_witness :
  exists cfg,
    RATE_LIMITED_ENDPOINTS !! pathname tokenJsonRequest = Some cfg /\
    "email:user@example.com" = extractedKey ascii_lower_string tokenJsonRequest (keyType cfg).
Proof.
  apply (proj2 (fetch_calls_limiter_at_most_once ascii_lower_string backend
          tokenJsonRequest (envWith onceLimiter) ctx0 initial_world) "1001").
  vm_compute. left. reflexivity.
Defined.

(** A registration is limited without its body being touched. *)
Lemma ip_keyed_endpoints_never_read_body_witness :
  List.filter is_body_read
    (effects_of (fetch ascii_lower_string backend registerRequest (envWith denyingLimiter)
                   ctx0) initial_world) = [].
Proof.
  exact (proj1 (ip_keyed_endpoints_never_read_body ascii_lower_string backend
                  registerRequest (envWith denyingLimiter) ctx0 initial_world
                  ltac:(left; reflexivity))).
Defined.

(** Plain text, and a form with an empty [username]: no log line. *)
Lemma fallback_without_exception_is_silent_witness :
  extractRateLimitKey ascii_lower_string tokenTextRequest "email" initial_world =
    (Normal "ip:9.9.9.9", extend initial_world [RequestClone tokenTextRequest]) /\
  extractRateLimitKey ascii_lower_string tokenEmptyUsernameRequest "email" initial_world =
    (Normal "ip:5.6.7.8",
     extend initial_world
       [RequestClone tokenEmptyUsernameRequest; BodyFormData tokenEmptyUsernameRequest]).
Proof.
  split.
  - exact (proj1 (fallback_without_exception_is_silent ascii_lower_string
                    tokenTextRequest initial_world eq_refl) eq_refl eq_refl).
  - exact (proj1 (proj2 (fallback_without_exception_is_silent ascii_lower_string
                           tokenEmptyUsernameRequest initial_world eq_refl))
             _ eq_refl eq_refl eq_refl).
Defined.

(** A body already used, and a numeric [email]: one warning each. *)
Lemma fallback_after_exception_is_logged_witness :
  (exists e,
     extractRateLimitKey ascii_lower_string tokenUsedBodyRequest "email" initial_world =
       (Normal "ip:5.6.7.8",
        extend initial_world [RequestClone tokenUsedBodyRequest; extractionFailedLog e])) /\
  (exists e,
     extractRateLimitKey ascii_lower_string tokenNumericEmailRequest "email" initial_world =
       (Normal "ip:5.6.7.8",
        extend initial_world
          [RequestClone tokenNumericEmailRequest; BodyJson tokenNumericEmailRequest;
           extractionFailedLog e])).
Proof.
  split.
  - destruct (proj1 (fallback_after_exception_is_logged ascii_lower_string
                       tokenUsedBodyRequest initial_world) eq_refl) as (e & _ & Hrun).
    by exists e.
  - destruct (proj2 (proj2 (proj2 (fallback_after_exception_is_logged ascii_lower_string
                       tokenNumericEmailRequest initial_world))) eq_refl
                (JsObject [("email", JsNumber 7); ("username", JsString "user@example.com")])
                (JsNumber 7) (JsString "user@example.com") eq_refl eq_refl)
      as (e & _ & Hrun).
    + right. repeat split. intros s. discriminate.
    + by exists e.
Defined.

(** Plain text fails; a JSON login with an address does not. *)
Lemma extraction_fails_iff_ip_key_witness :
  ExtractionFailure tokenTextRequest /\ ~ ExtractionFailure tokenJsonRequest.
Proof.
  split.
  - apply (proj1 (extraction_fails_iff_ip_key ascii_lower_string tokenTextRequest
                    initial_world)).
    reflexivity.
  - intros Hfail.
    apply (proj1 (extraction_fails_iff_ip_key ascii_lower_string tokenJsonRequest
                    initial_world)) in Hfail.
    discriminate Hfail.
Defined.

(** A content type that names both encodings is read as a form. *)
Example both_markers_are_read_as_form :
  effects_of (extractRateLimitKey ascii_lower_string tokenBothMarkersRequest "email")
    initial_world =
    [RequestClone tokenBothMarkersRequest; BodyFormData tokenBothMarkersRequest;
     extractionFailedLog (TypeError "Unrecognized Content-Type header value")].
Proof. reflexivity. Qed.

(** A JSON login with a limiter bound does have its body read, on the
    login path. *)
Lemma body_is_read_only_for_login_witness :
  pathname tokenJsonRequest = "/identity/connect/token" /\
  Binding_truthy (envWith allowingLimiter !! "LOGIN_RATE_LIMITER") = true.
Proof.
  apply (body_is_read_only_for_login ascii_lower_string backend tokenJsonRequest
           (envWith allowingLimiter) ctx0 initial_world).
  vm_compute. discriminate.
Defined.

(** C3, counterexample: a form login whose [username] is empty is keyed
    by the client address, not by ["email:"] followed by that value; a
    JSON login whose [email] is present but empty is keyed by its
    [username]; and a JSON login announced as [Application/JSON] is
    keyed by the client address although its body holds an address. *)
Lemma empty_or_capitalised_inputs_get_other_keys :
  (form_encoded tokenEmptyUsernameRequest = true /\
   (exists fd,
      body_formData tokenEmptyUsernameRequest = Fulfilled fd /\
      FormData_get fd "username" = Some (FormString "")) /\
   fst (extractRateLimitKey ascii_lower_string tokenEmptyUsernameRequest "email"
          initial_world) = Normal "ip:5.6.7.8") /\
  (json_encoded tokenEmptyEmailRequest = true /\
   (exists props,
      body_json tokenEmptyEmailRequest = Fulfilled (JsObject props) /\
      assoc "email" props = Some (JsString "")) /\
   fst (extractRateLimitKey ascii_lower_string tokenEmptyEmailRequest "email"
          initial_world) = Normal "email:user@example.com") /\
  (contentType_of tokenCapitalisedJsonRequest = "Application/JSON" /\
   body_json tokenCapitalisedJsonRequest =
     Fulfilled (JsObject [("email", JsString "User@Example.com")]) /\
   fst (extractRateLimitKey ascii_lower_string tokenCapitalisedJsonRequest "email"
          initial_world) = Normal "ip:5.6.7.8") /\
  ~ (forall (request : Request) (fd : FormData) (v : string),
       form_encoded request = true ->
       body_formData request = Fulfilled fd ->
       FormData_get fd "username" = Some (FormString v) ->
       fst (extractRateLimitKey ascii_lower_string request "email" initial_world) =
         Normal ("email:" +:+ ascii_lower_string v)) /\
  ~ (forall (request : Request) (props : list (string * JsValue)) (v : string),
       json_encoded request = true ->
       body_json request = Fulfilled (JsObject props) ->
       assoc "email" props = Some (JsString v) ->
       fst (extractRateLimitKey ascii_lower_string request "email" initial_world) =
         Normal ("email:" +:+ ascii_lower_string v)).
Proof.
  split; [ | split; [ | split; [ | split ] ] ].
  - split; [ reflexivity | split; [ | reflexivity ] ].
    eexists. split; reflexivity.
  - split; [ reflexivity | split; [ | reflexivity ] ].
    eexists. split; reflexivity.
  - repeat split.
  - intros Hall.
    specialize (Hall tokenEmptyUsernameRequest _ "" eq_refl eq_refl eq_refl).
    discriminate Hall.
  - intros Hall.
    specialize (Hall tokenEmptyEmailRequest _ "" eq_refl eq_refl eq_refl).
    discriminate Hall.
Qed.
